(** * Plugin manager store: install, update, remove and list plugins

    A shallow embedding of [pkg/plugins/manager/store.go].  The manager's
    methods run in a small state-and-error monad over a [World] made of the
    plugin registry and the chronological trace of every call the manager
    makes to one of its collaborators (repository client, plugin filesystem,
    loader, unregister-and-stop).  The collaborators themselves, and the Go
    library functions the file calls, are parameters of the development. *)

From Stdlib Require Import String Ascii List Bool.
From stdpp Require Import base option list gmap strings.

Open Scope string_scope.
Open Scope list_scope.

(** ** Data model *)

(** Package [plugins]: the types [store.go] imports from it. *)
Module plugins.

(** Modelled from the spec: the [Plugin] struct is declared outside
    [store.go]; these are the fields and accessor methods the manager
    reads (data model section: ID, Info.Version, PluginDir, Type, the
    provenance flag and the decommissioned marker). *)
Record Plugin := {
  ID : string;
  Info_Version : string;
  PluginDir : string;
  Type_ : string;
  IsExternalPlugin : bool;
  IsDecommissioned : bool
}.

Record CompatabilityOpts := { GrafanaVersion : string }.

End plugins.

(** Package [repository]: results of the repository client. *)
Module repository.

Record PluginDownloadOptions := {
  PluginZipURL : string;
  Version : string
}.

(** The archive is only ever handed on to the plugin filesystem, so its
    content is an opaque token. *)
Record PluginArchive := { File : string }.

End repository.

(** Package [storage]: results of the plugin filesystem. *)
Module storage.

Record Dependency := { ID : string; Version : string }.

Record ExtractedArchive := {
  Path : string;
  Dependencies : list Dependency
}.

End storage.

(** Go's [error] values as the manager produces and forwards them.  The
    first six are the sentinel and struct errors of package [plugins];
    [Errorf] is [fmt.Errorf] without [%w], [Wrapf msg err] is
    [fmt.Errorf("%v: %w", msg, err)], and [Upstream] is an error value that
    a collaborator returned, which the manager never inspects. *)
Inductive error :=
| ErrInvalidPluginVersionFormat
| ErrInstallCorePlugin
| ErrUninstallCorePlugin
| ErrUninstallOutsideOfPluginDir
| ErrPluginNotInstalled
| DuplicateError (PluginID ExistingPluginDir : string)
| Errorf (msg : string)
| Wrapf (msg : string) (err : error)
| Upstream (detail : string).

(** What the manager does to the outside, in the order it does it. *)
Inductive Event :=
| CallGetPluginDownloadOptions (pluginID version grafanaVersion : string)
| CallGetPluginArchive (pluginID version grafanaVersion : string)
| CallGetPluginArchiveByURL (url grafanaVersion : string)
| CallFsAdd (file pluginID pluginsPath : string)
| CallFsRemove (pluginDir : string)
| CallUnregisterAndStop (pluginID : string)
| CallLoadPlugins (paths : list string)
| LogInfo (format arg : string)
| LogError (msg : string) (paths : list string) (err : error).

Record World := {
  registry : gmap string plugins.Plugin;
  trace : list Event
}.

Definition record (ev : Event) (w : World) : World :=
  {| registry := registry w; trace := trace w ++ [ev] |}.

Definition set_registry (reg : gmap string plugins.Plugin) (w : World) : World :=
  {| registry := reg; trace := trace w |}.

(** ** The monad of manager methods: a result or an error, and the world *)

Inductive Res (A : Type) :=
| Ok (a : A)
| Err (e : error).
Arguments Ok {A} a.
Arguments Err {A} e.

Definition M (A : Type) : Type := World -> Res A * World.

Definition ret {A} (a : A) : M A := fun w => (Ok a, w).

Definition fail {A} (e : error) : M A := fun w => (Err e, w).

Definition bind {A B} (c : M A) (k : A -> M B) : M B :=
  fun w =>
    match c w with
    | (Ok a, w') => k a w'
    | (Err e, w') => (Err e, w')
    end.

Notation "'let*' x ':=' c 'in' k" := (bind c (fun x => k))
  (at level 10, x name, c at level 100, k at level 200).

(** A call to a collaborator: the call is recorded, then the collaborator's
    answer (which may depend on the world at the time of the call) is
    returned, its error, if any, as an [Upstream] value. *)
Definition call {A} (ev : Event) (answer : World -> string + A) : M A :=
  fun w =>
    match answer w with
    | inr a => (Ok a, record ev w)
    | inl detail => (Err (Upstream detail), record ev w)
    end.

Definition emit (ev : Event) : M unit := fun w => (Ok tt, record ev w).

(** ** Collaborators *)

Record Repository := {
  GetPluginDownloadOptions :
    World -> string -> string -> string -> string + repository.PluginDownloadOptions;
  GetPluginArchive :
    World -> string -> string -> string -> string + repository.PluginArchive;
  GetPluginArchiveByURL :
    World -> string -> string -> string + repository.PluginArchive
}.

Record FileSystem := {
  fs_Add : World -> string -> string -> string -> string + storage.ExtractedArchive;
  fs_Remove : World -> string -> string + unit
}.

(** The fields of the [PluginManager] struct that [store.go] uses.  The
    registry is the mutable part and lives in the [World]; [loader] stands
    for the [loadPlugins] method and [stopFailure] for the ways in which
    [unregisterAndStop] can fail, both declared outside [store.go]. *)
Record PluginManager := {
  cfg_PluginsPath : string;
  pluginRepo : Repository;
  pluginFs : FileSystem;
  loader : World -> list string -> gmap string plugins.Plugin * option string;
  stopFailure : World -> plugins.Plugin -> option (string * gmap string plugins.Plugin)
}.

(** Modelled from the spec: the registry's [Plugins] enumeration is that of
    an index "keyed by plugin identifier" that "supports lookup,
    enumeration"; the enumeration lists the values of the index. *)
Definition registry_Plugins (reg : gmap string plugins.Plugin) : list plugins.Plugin :=
  (map_to_list reg).*2.

(** ** An example installation

    A plugins root, a registry with one plugin of every kind the manager
    distinguishes, and collaborators whose failures can be switched on. *)
Module Demo.

Definition root : string := "/var/lib/grafana/plugins".

(** An external, active plugin inside the plugins root. *)
Definition acme : plugins.Plugin :=
  {| plugins.ID := "acme-panel"; plugins.Info_Version := "1.0.0";
     plugins.PluginDir := "/var/lib/grafana/plugins/acme-panel";
     plugins.Type_ := "panel";
     plugins.IsExternalPlugin := true; plugins.IsDecommissioned := false |}.

(** A core plugin. *)
Definition graph : plugins.Plugin :=
  {| plugins.ID := "graph"; plugins.Info_Version := "";
     plugins.PluginDir := "/usr/share/grafana/public/app/plugins/panel/graph";
     plugins.Type_ := "panel";
     plugins.IsExternalPlugin := false; plugins.IsDecommissioned := false |}.

(** A core plugin that has been decommissioned. *)
Definition legacy : plugins.Plugin :=
  {| plugins.ID := "legacy-ds"; plugins.Info_Version := "";
     plugins.PluginDir := "/usr/share/grafana/public/app/plugins/datasource/legacy-ds";
     plugins.Type_ := "datasource";
     plugins.IsExternalPlugin := false; plugins.IsDecommissioned := true |}.

(** An external plugin whose manifest still carries the build placeholder
    as its version. *)
Definition devApp : plugins.Plugin :=
  {| plugins.ID := "dev-app"; plugins.Info_Version := "%VERSION%";
     plugins.PluginDir := "/var/lib/grafana/plugins/dev-app";
     plugins.Type_ := "app";
     plugins.IsExternalPlugin := true; plugins.IsDecommissioned := false |}.

(** An external plugin whose directory is the parent of the plugins root. *)
Definition stray : plugins.Plugin :=
  {| plugins.ID := "stray-ds"; plugins.Info_Version := "1.0.0";
     plugins.PluginDir := "/var/lib/grafana";
     plugins.Type_ := "datasource";
     plugins.IsExternalPlugin := true; plugins.IsDecommissioned := false |}.

(** An external plugin whose directory lies elsewhere. *)
Definition outside : plugins.Plugin :=
  {| plugins.ID := "outside-app"; plugins.Info_Version := "1.0.0";
     plugins.PluginDir := "/etc/acme";
     plugins.Type_ := "app";
     plugins.IsExternalPlugin := true; plugins.IsDecommissioned := false |}.

Definition installed : gmap string plugins.Plugin :=
  <["acme-panel" := acme]> (<["graph" := graph]> (<["legacy-ds" := legacy]>
    (<["dev-app" := devApp]> (<["stray-ds" := stray]> (<["outside-app" := outside]> ∅))))).

Definition world : World := {| registry := installed; trace := [] |}.

Definition fresh : World := {| registry := ∅; trace := [] |}.

Definition opts : plugins.CompatabilityOpts := {| plugins.GrafanaVersion := "9.1.0" |}.

(** The constraint parser on the tokens of the examples: the listed tokens
    parse, every other token stands for a malformed one. *)
Definition NewConstraint (version : string) : bool :=
  existsb (String.eqb version) ["1.0.0"; "1.2.0"; "2.0.0"; ">=1.0.0"; "^2.0.0"].

(** [filepath.Rel] from the plugins root to the directories of the
    examples. *)
Definition Rel (base targ : string) : option string :=
  if negb (String.eqb base root) then None
  else if String.eqb targ "/var/lib/grafana/plugins/acme-panel" then Some "acme-panel"
  else if String.eqb targ "/var/lib/grafana/plugins/dev-app" then Some "dev-app"
  else if String.eqb targ "/var/lib/grafana" then Some ".."
  else if String.eqb targ "/etc/acme" then Some "../../../../etc/acme"
  else None.

Definition Separator : ascii := "/"%char.

Record Faults := {
  fetchFails : string -> bool;
  extractFails : string -> bool;
  deleteFails : bool
}.

Definition noFaults : Faults :=
  {| fetchFails := fun _ => false; extractFails := fun _ => false; deleteFails := false |}.

(** The repository resolves the empty token to 2.0.0, the constraint
    [>=1.0.0] to 1.0.0 and a concrete version to itself; it never offers a
    direct URL. *)
Definition repo (f : Faults) : Repository :=
  {| GetPluginDownloadOptions := fun _ pluginID version gv =>
       inr {| repository.PluginZipURL := "";
              repository.Version :=
                if String.eqb version "" then "2.0.0"
                else if String.eqb version ">=1.0.0" then "1.0.0"
                else version |};
     GetPluginArchive := fun _ pluginID version gv =>
       if fetchFails f pluginID then inl "repository unavailable"
       else inr {| repository.File := (pluginID ++ "-" ++ version ++ ".zip")%string |};
     GetPluginArchiveByURL := fun _ url gv =>
       inr {| repository.File := url |} |}.

(** The archive of acme-panel declares one dependency, acme-lib 1.0.0. *)
Definition fsys (f : Faults) : FileSystem :=
  {| fs_Add := fun _ file pluginID pluginsPath =>
       if extractFails f pluginID then inl "disk full"
       else inr {| storage.Path := (pluginsPath ++ "/" ++ pluginID)%string;
                   storage.Dependencies :=
                     if String.eqb pluginID "acme-panel"
                     then [ {| storage.ID := "acme-lib"; storage.Version := "1.0.0" |} ]
                     else [] |};
     fs_Remove := fun _ pluginDir =>
       if deleteFails f then inl "permission denied" else inr tt |}.

(** The loader of the examples finds nothing to register; stopping a
    plugin always works. *)
Definition manager (f : Faults) : PluginManager :=
  {| cfg_PluginsPath := root;
     pluginRepo := repo f;
     pluginFs := fsys f;
     loader := fun w _ => (registry w, None);
     stopFailure := fun _ _ => None |}.

Definition fetchFailsFor (pluginID : string) : Faults :=
  {| fetchFails := String.eqb pluginID; extractFails := fun _ => false;
     deleteFails := false |}.

Definition extractFailsFor (pluginID : string) : Faults :=
  {| fetchFails := fun _ => false; extractFails := String.eqb pluginID;
     deleteFails := false |}.

Definition deleteFailing : Faults :=
  {| fetchFails := fun _ => false; extractFails := fun _ => false;
     deleteFails := true |}.

End Demo.

(** Two more repositories for the example installation: one that cannot
    resolve any request, one that resolves every request to nothing. *)
Module Outage.

Definition unresolved : PluginManager :=
  {| cfg_PluginsPath := Demo.root;
     pluginRepo :=
       {| GetPluginDownloadOptions := fun _ _ _ _ => inl "no compatible version";
          GetPluginArchive := GetPluginArchive (Demo.repo Demo.noFaults);
          GetPluginArchiveByURL := GetPluginArchiveByURL (Demo.repo Demo.noFaults) |};
     pluginFs := Demo.fsys Demo.noFaults;
     loader := fun w _ => (registry w, None);
     stopFailure := fun _ _ => None |}.

Definition undetermined : PluginManager :=
  {| cfg_PluginsPath := Demo.root;
     pluginRepo :=
       {| GetPluginDownloadOptions := fun _ _ _ _ =>
            inr {| repository.PluginZipURL := ""; repository.Version := "" |};
          GetPluginArchive := GetPluginArchive (Demo.repo Demo.noFaults);
          GetPluginArchiveByURL := GetPluginArchiveByURL (Demo.repo Demo.noFaults) |};
     pluginFs := Demo.fsys Demo.noFaults;
     loader := fun w _ => (registry w, None);
     stopFailure := fun _ _ => None |}.

End Outage.

(** The example installation with a plugin filesystem for which the
    archive of acme-panel declares two dependencies, acme-lib 1.0.0 and
    acme-icons 2.0.0, in that order. *)
Module Bundle.

Definition declared : list storage.Dependency :=
  [ {| storage.ID := "acme-lib"; storage.Version := "1.0.0" |};
    {| storage.ID := "acme-icons"; storage.Version := "2.0.0" |} ].

Definition fsys (f : Demo.Faults) : FileSystem :=
  {| fs_Add := fun _ file pluginID pluginsPath =>
       if Demo.extractFails f pluginID then inl "disk full"
       else inr {| storage.Path := (pluginsPath ++ "/" ++ pluginID)%string;
                   storage.Dependencies :=
                     if String.eqb pluginID "acme-panel" then declared else [] |};
     fs_Remove := fs_Remove (Demo.fsys f) |}.

Definition manager (f : Demo.Faults) : PluginManager :=
  {| cfg_PluginsPath := Demo.root;
     pluginRepo := Demo.repo f;
     pluginFs := fsys f;
     loader := fun w _ => (registry w, None);
     stopFailure := fun _ _ => None |}.

(** What the collaborators answer for acme-lib. *)
Definition libAnswer : repository.PluginArchive * storage.ExtractedArchive :=
  ({| repository.File := "acme-lib-1.0.0.zip" |},
   {| storage.Path := "/var/lib/grafana/plugins/acme-lib"; storage.Dependencies := [] |}).

End Bundle.

Section Manager.

(** [semver.NewConstraint]: does the string parse as a constraint? *)
Variable semver_NewConstraint : string -> bool.

(** [filepath.Rel base targ], [None] when it returns an error, and
    [filepath.Separator]. *)
Variable filepath_Rel : string -> string -> option string.
Variable filepath_Separator : ascii.

(** [plugins.PluginTypes], the enumeration of known plugin types, and the
    [ToDTO] projection. *)
Variable PluginTypes : list string.
Variable PluginDTO : Type.
Variable ToDTO : plugins.Plugin -> PluginDTO.

Variable m : PluginManager.

(** [plugin] finds a plugin with [pluginID] from the registry that is not
    decommissioned. *)
Definition plugin (reg : gmap string plugins.Plugin) (pluginID : string)
  : option plugins.Plugin :=
  match reg !! pluginID with
  | Some p => if plugins.IsDecommissioned p then None else Some p
  | None => None
  end.

Definition Plugin (w : World) (pluginID : string) : option PluginDTO :=
  match plugin (registry w) pluginID with
  | Some p => Some (ToDTO p)
  | None => None
  end.

(** [availablePlugins] returns all non-decommissioned plugins from the
    registry: a loop that appends to [res]. *)
Definition availablePlugins (reg : gmap string plugins.Plugin) : list plugins.Plugin :=
  foldl (fun res p => if negb (plugins.IsDecommissioned p) then res ++ [p] else res)
        [] (registry_Plugins reg).

(** [registeredPlugins] returns the identifiers of all registered plugins. *)
Definition registeredPlugins (reg : gmap string plugins.Plugin) : gset string :=
  foldl (fun pluginsByID p => {[plugins.ID p]} ∪ pluginsByID) ∅ (registry_Plugins reg).

(** The set [requestedTypes] built by the first loop of [Plugins]. *)
Definition requestedTypes (pluginTypes : list string) : gset string :=
  foldl (fun acc pt => {[pt]} ∪ acc) ∅ pluginTypes.

Definition Plugins (w : World) (pluginTypes : list string) : list PluginDTO :=
  let pluginTypes :=
    if Nat.eqb (length pluginTypes) 0 then PluginTypes else pluginTypes in
  let requested := requestedTypes pluginTypes in
  foldl (fun pluginsList p =>
           if bool_decide (plugins.Type_ p ∈ requested)
           then pluginsList ++ [ToDTO p] else pluginsList)
        [] (availablePlugins (registry w)).

Definition isSemVerExpr (version : string) : bool :=
  if String.eqb version "" then false else semver_NewConstraint version.

(** Modelled from the spec: [unregisterAndStop] is a method declared
    outside [store.go]: "Unregister the plugin from the registry and stop
    any running instance; propagate failure."  On success the plugin's
    entry is gone from the registry; what a failed attempt leaves behind
    is up to the collaborator. *)
Definition unregisterAndStop (p : plugins.Plugin) : M unit :=
  fun w =>
    let w1 := record (CallUnregisterAndStop (plugins.ID p)) w in
    match stopFailure m w p with
    | Some (detail, reg') => (Err (Upstream detail), set_registry reg' w1)
    | None => (Ok tt, set_registry (delete (plugins.ID p) (registry w)) w1)
    end.

(** The prefix [".." + string(filepath.Separator)]. *)
Definition parentPrefix : string := (".." ++ String filepath_Separator "")%string.

Definition Remove (pluginID : string) : M unit :=
  fun w =>
    match plugin (registry w) pluginID with
    | None => (Err ErrPluginNotInstalled, w)
    | Some p =>
      if negb (plugins.IsExternalPlugin p) then (Err ErrUninstallCorePlugin, w)
      else
        match filepath_Rel (cfg_PluginsPath m) (plugins.PluginDir p) with
        | None => (Err ErrUninstallOutsideOfPluginDir, w)
        | Some path =>
          if String.prefix parentPrefix path
          then (Err ErrUninstallOutsideOfPluginDir, w)
          else
            (let* _ := unregisterAndStop p in
             call (CallFsRemove (plugins.PluginDir p))
                  (fun w' => fs_Remove (pluginFs m) w' (plugins.PluginDir p))) w
        end
    end.

(** The three repository calls and the filesystem extraction, each
    recorded in the trace. *)
Definition repoDownloadOptions (pluginID version gv : string)
  : M repository.PluginDownloadOptions :=
  call (CallGetPluginDownloadOptions pluginID version gv)
       (fun w => GetPluginDownloadOptions (pluginRepo m) w pluginID version gv).

Definition repoArchive (pluginID version gv : string) : M repository.PluginArchive :=
  call (CallGetPluginArchive pluginID version gv)
       (fun w => GetPluginArchive (pluginRepo m) w pluginID version gv).

Definition repoArchiveByURL (url gv : string) : M repository.PluginArchive :=
  call (CallGetPluginArchiveByURL url gv)
       (fun w => GetPluginArchiveByURL (pluginRepo m) w url gv).

Definition fsAdd (file pluginID : string) : M storage.ExtractedArchive :=
  call (CallFsAdd file pluginID (cfg_PluginsPath m))
       (fun w => fs_Add (pluginFs m) w file pluginID (cfg_PluginsPath m)).


Definition fetchUpdate (dlOpts : repository.PluginDownloadOptions)
           (pluginID gv : string) : M repository.PluginArchive :=
  if negb (String.eqb (repository.PluginZipURL dlOpts) "")
  then repoArchiveByURL (repository.PluginZipURL dlOpts) gv
  else repoArchive pluginID (repository.Version dlOpts) gv.

(** The update branch of [Add] (the body of [if plugin, exists := ...]):
    guards, version resolution, removal of the existing installation,
    then the fetch of the new archive. *)
Definition updateArchive (p : plugins.Plugin) (pluginID version gv : string)
  : M repository.PluginArchive :=
  if negb (plugins.IsExternalPlugin p) then fail ErrInstallCorePlugin
  else if String.eqb (plugins.Info_Version p) version
  then fail (DuplicateError (plugins.ID p) (plugins.PluginDir p))
  else
    let* dlOpts := repoDownloadOptions pluginID version gv in
    if String.eqb (repository.Version dlOpts) (plugins.Info_Version p)
    then fail (DuplicateError (plugins.ID p) (plugins.PluginDir p))
    else if String.eqb (repository.PluginZipURL dlOpts) ""
            && String.eqb (repository.Version dlOpts) ""
    then fail (Errorf ("could not determine update options for " ++ pluginID)%string)
    else
      let* _ := Remove (plugins.ID p) in
      fetchUpdate dlOpts pluginID gv.

(** The whole [if ... else] that assigns [pluginArchive]. *)
Definition resolveArchive (pluginID version gv : string) : M repository.PluginArchive :=
  fun w =>
    match plugin (registry w) pluginID with
    | Some p => updateArchive p pluginID version gv w
    | None => repoArchive pluginID version gv w
    end.

(** The message [fmt.Sprintf("failed to download plugin %s from
    repository", dep.ID)]. *)
Definition downloadFailed (dep : storage.Dependency) : string :=
  ("failed to download plugin " ++ storage.ID dep ++ " from repository")%string.

(** The loop over [extractedArchive.Dependencies], with [pathsToScan] as
    its accumulator. *)
Fixpoint downloadDependencies (deps : list storage.Dependency) (gv : string)
         (pathsToScan : list string) : M (list string) :=
  match deps with
  | [] => ret pathsToScan
  | dep :: deps' =>
    let* _ := emit (LogInfo "Fetching %s dependencies..." (storage.ID dep)) in
    fun w =>
      match repoArchive (storage.ID dep) (storage.Version dep) gv w with
      | (Err err, w') =>
        (Err (Wrapf (downloadFailed dep) err), w')
      | (Ok d, w') =>
        (let* depArchive := fsAdd (repository.File d) (storage.ID dep) in
         downloadDependencies deps' gv (pathsToScan ++ [storage.Path depArchive])) w'
      end
  end.

(** The final [loadPlugins] call with its error log. *)
Definition loadPlugins (pathsToScan : list string) : M unit :=
  fun w =>
    let w1 := record (CallLoadPlugins pathsToScan) w in
    match loader m w pathsToScan with
    | (reg', Some detail) =>
      (Err (Upstream detail),
       record (LogError "Could not load plugins" pathsToScan (Upstream detail))
              (set_registry reg' w1))
    | (reg', None) => (Ok tt, set_registry reg' w1)
    end.

(** Everything in [Add] after [pluginArchive] has been assigned. *)
Definition installArchive (pluginArchive : repository.PluginArchive)
           (pluginID gv : string) : M unit :=
  let* extractedArchive := fsAdd (repository.File pluginArchive) pluginID in
  let* pathsToScan :=
    downloadDependencies (storage.Dependencies extractedArchive) gv
                         [storage.Path extractedArchive] in
  loadPlugins pathsToScan.

Definition Add (pluginID version : string) (opts : plugins.CompatabilityOpts) : M unit :=
  if negb (String.eqb version "") && negb (isSemVerExpr version)
  then fail ErrInvalidPluginVersionFormat
  else
    let* pluginArchive := resolveArchive pluginID version (plugins.GrafanaVersion opts) in
    installArchive pluginArchive pluginID (plugins.GrafanaVersion opts).

(** ** Which errors a method can return *)

Definition raises {A} (c : M A) (P : error -> Prop) : Prop :=
  forall w e w', c w = (Err e, w') -> P e.

(** Errors that come out of a collaborator, bare or wrapped. *)
Definition upstreamError (e : error) : Prop :=
  match e with
  | Upstream _ | Wrapf _ _ => True
  | _ => False
  end.

(** Errors that [Remove] can return. *)
Definition removeError (e : error) : Prop :=
  match e with
  | ErrPluginNotInstalled | ErrUninstallCorePlugin
  | ErrUninstallOutsideOfPluginDir | Upstream _ => True
  | _ => False
  end.

(** The version token passes the format check at the head of [Add]. *)
Definition versionAccepted (version : string) : Prop :=
  version = "" \/ isSemVerExpr version = true.

(** The world after a successful [unregisterAndStop] and the attempt to
    delete the plugin's directory. *)
Definition removedWorld (p : plugins.Plugin) (w : World) : World :=
  record (CallFsRemove (plugins.PluginDir p))
         (set_registry (delete (plugins.ID p) (registry w))
                       (record (CallUnregisterAndStop (plugins.ID p)) w)).

(** [Add pluginID version opts] in world [w] is on its update path and
    reaches the removal of the existing installation: [p] is registered
    under its own identifier, active and external, the version token passes
    the format check and differs from the installed version, and the
    repository resolves the request to [dlOpts], a version other than the
    installed one, with a URL or a version to fetch. *)
Definition updating (pluginID version : string) (opts : plugins.CompatabilityOpts)
           (w : World) (p : plugins.Plugin)
           (dlOpts : repository.PluginDownloadOptions) : Prop :=
  registry w !! pluginID = Some p
  /\ plugins.ID p = pluginID
  /\ plugins.IsDecommissioned p = false
  /\ plugins.IsExternalPlugin p = true
  /\ versionAccepted version
  /\ plugins.Info_Version p <> version
  /\ GetPluginDownloadOptions (pluginRepo m) w pluginID version
                              (plugins.GrafanaVersion opts) = inr dlOpts
  /\ repository.Version dlOpts <> plugins.Info_Version p
  /\ (repository.PluginZipURL dlOpts <> "" \/ repository.Version dlOpts <> "").

(** The world in which the update path calls [Remove]: the repository has
    been asked for the download options, nothing else has happened. *)
Definition resolvedWorld (pluginID version : string) (opts : plugins.CompatabilityOpts)
           (w : World) : World :=
  record (CallGetPluginDownloadOptions pluginID version (plugins.GrafanaVersion opts)) w.

(** Events the dependency loop can add to the trace. *)
Definition depEvent (ev : Event) : Prop :=
  match ev with
  | LogInfo _ _ | CallGetPluginArchive _ _ _ | CallFsAdd _ _ _ => True
  | _ => False
  end.


(** The listing as the specification words it: the projection of every
    plugin of the registry that is not decommissioned and whose type is
    among [types]. *)
Definition wanted (types : list string) (p : plugins.Plugin) : bool :=
  negb (plugins.IsDecommissioned p) && bool_decide (plugins.Type_ p ∈ types).

Definition Plugins_spec (w : World) (types : list string) : list PluginDTO :=
  List.map ToDTO (List.filter (wanted types) (registry_Plugins (registry w))).

(** ** Notions for the further properties *)

(** The registry files every plugin under its own identifier. *)
Definition keyed (reg : gmap string plugins.Plugin) : Prop :=
  forall k p, reg !! k = Some p -> plugins.ID p = k.

(** A method only appends events that satisfy [P] to the trace. *)
Definition emits {A} (c : M A) (P : Event -> Prop) : Prop :=
  forall w, exists added, trace (c w).2 = trace w ++ added /\ Forall P added.

(** The events through which the registry can change. *)
Definition mutates (ev : Event) : Prop :=
  match ev with
  | CallUnregisterAndStop _ | CallLoadPlugins _ => True
  | _ => False
  end.

(** A method leaves the registry alone unless it appends an event that
    [mutates]. *)
Definition preserves {A} (c : M A) : Prop :=
  forall w, exists added,
    trace (c w).2 = trace w ++ added
    /\ (Forall (fun ev => ~ mutates ev) added -> registry (c w).2 = registry w).

(** The event addresses the collaborators with the host version [gv] and
    the plugins root [root]. *)
Definition carries (gv root : string) (ev : Event) : Prop :=
  match ev with
  | CallGetPluginDownloadOptions _ _ g
  | CallGetPluginArchive _ _ g
  | CallGetPluginArchiveByURL _ g => g = gv
  | CallFsAdd _ _ r => r = root
  | _ => True
  end.

(** The events of a run of the dependency loop in which every dependency
    is fetched and extracted: for each dependency in turn the log line, the
    fetch and the extraction of the file the repository delivered. *)
Definition dependencyEvents (gv : string) (dep : storage.Dependency) (file : string)
  : list Event :=
  [LogInfo "Fetching %s dependencies..." (storage.ID dep);
   CallGetPluginArchive (storage.ID dep) (storage.Version dep) gv;
   CallFsAdd file (storage.ID dep) (cfg_PluginsPath m)].

Fixpoint dependenciesTrace (gv : string) (deps : list storage.Dependency)
         (files : list string) : list Event :=
  match deps, files with
  | dep :: deps', file :: files' =>
    dependencyEvents gv dep file ++ dependenciesTrace gv deps' files'
  | _, _ => []
  end.

(** What the collaborators answer while the dependency loop handles [deps]
    from world [w] on: for each dependency in turn the repository delivers
    an archive and the filesystem extracts it, each asked in the world the
    loop has reached by then.  [dependencyWorld] is the world after one
    such dependency, [afterDependencies] the world after all of them. *)
Definition dependencyWorld (gv : string) (dep : storage.Dependency)
           (d : repository.PluginArchive) (w : World) : World :=
  record (CallFsAdd (repository.File d) (storage.ID dep) (cfg_PluginsPath m))
    (record (CallGetPluginArchive (storage.ID dep) (storage.Version dep) gv)
       (record (LogInfo "Fetching %s dependencies..." (storage.ID dep)) w)).

Fixpoint dependenciesAnswered (gv : string) (deps : list storage.Dependency)
         (answers : list (repository.PluginArchive * storage.ExtractedArchive))
         (w : World) : Prop :=
  match deps, answers with
  | [], [] => True
  | dep :: deps', (d, depArchive) :: answers' =>
    let wl := record (LogInfo "Fetching %s dependencies..." (storage.ID dep)) w in
    let wf := record (CallGetPluginArchive (storage.ID dep) (storage.Version dep) gv) wl in
    GetPluginArchive (pluginRepo m) wl (storage.ID dep) (storage.Version dep) gv = inr d
    /\ fs_Add (pluginFs m) wf (repository.File d) (storage.ID dep) (cfg_PluginsPath m)
       = inr depArchive
    /\ dependenciesAnswered gv deps' answers' (dependencyWorld gv dep d w)
  | _, _ => False
  end.

Fixpoint afterDependencies (gv : string) (deps : list storage.Dependency)
         (answers : list (repository.PluginArchive * storage.ExtractedArchive))
         (w : World) : World :=
  match deps, answers with
  | dep :: deps', (d, _) :: answers' =>
    afterDependencies gv deps' answers' (dependencyWorld gv dep d w)
  | _, _ => w
  end.

(** The files the repository delivered and the paths the filesystem
    extracted them to. *)
Definition fetchedFiles
           (answers : list (repository.PluginArchive * storage.ExtractedArchive))
  : list string :=
  List.map (fun answer => repository.File answer.1) answers.

Definition extractedPaths
           (answers : list (repository.PluginArchive * storage.ExtractedArchive))
  : list string :=
  List.map (fun answer => storage.Path answer.2) answers.

(** ** Basic facts *)

Lemma raises_ret {A} (a : A) P : raises (ret a) P.
Proof. intros w e w' H. discriminate H. Qed.

Lemma raises_fail {A} e (P : error -> Prop) : P e -> raises (@fail A e) P.
Proof. intros HP w e' w' H. injection H as <- _. exact HP. Qed.

Lemma raises_call {A} ev (answer : World -> string + A) (P : error -> Prop) :
  (forall d, P (Upstream d)) -> raises (call ev answer) P.
Proof.
  intros HP w e w' H. unfold call in H.
  destruct (answer w); [injection H as <- _; apply HP | discriminate H].
Qed.

Lemma raises_bind {A B} (c : M A) (k : A -> M B) P :
  raises c P -> (forall a, raises (k a) P) -> raises (bind c k) P.
Proof.
  intros Hc Hk w e w' H. unfold bind in H.
  destruct (c w) as [[a|e1] w1] eqn:E.
  - exact (Hk a _ _ _ H).
  - injection H as <- _. exact (Hc _ _ _ E).
Qed.

Lemma raises_mono {A} (c : M A) (P Q : error -> Prop) :
  (forall e, P e -> Q e) -> raises c P -> raises c Q.
Proof. intros HPQ Hc w e w' H. apply HPQ, (Hc _ _ _ H). Qed.

Lemma plugin_Some reg pluginID p :
  reg !! pluginID = Some p -> plugins.IsDecommissioned p = false ->
  plugin reg pluginID = Some p.
Proof. intros Hreg Hact. unfold plugin. by rewrite Hreg, Hact. Qed.

Lemma plugin_decommissioned reg pluginID p :
  reg !! pluginID = Some p -> plugins.IsDecommissioned p = true ->
  plugin reg pluginID = None.
Proof. intros Hreg Hdec. unfold plugin. by rewrite Hreg, Hdec. Qed.

Lemma plugin_inv reg pluginID p :
  plugin reg pluginID = Some p ->
  reg !! pluginID = Some p /\ plugins.IsDecommissioned p = false.
Proof.
  unfold plugin. destruct (reg !! pluginID) as [q|]; [|done].
  destruct (plugins.IsDecommissioned q) eqn:E; [done|].
  intros [= <-]. done.
Qed.

Lemma isSemVerExpr_empty : isSemVerExpr "" = false.
Proof. reflexivity. Qed.

Lemma isSemVerExpr_nonempty version :
  version <> "" -> isSemVerExpr version = semver_NewConstraint version.
Proof.
  intros Hne. unfold isSemVerExpr.
  destruct (String.eqb_spec version ""); [done|reflexivity].
Qed.

(** The format check at the head of [Add], as a case split on the token. *)
Lemma Add_rejected pluginID version opts w :
  version <> "" -> isSemVerExpr version = false ->
  Add pluginID version opts w = (Err ErrInvalidPluginVersionFormat, w).
Proof.
  intros Hne Hbad. unfold Add.
  destruct (String.eqb_spec version ""); [done|].
  rewrite Hbad. reflexivity.
Qed.

Lemma Add_accepted pluginID version opts w :
  versionAccepted version ->
  Add pluginID version opts w =
  (let* pluginArchive := resolveArchive pluginID version (plugins.GrafanaVersion opts) in
   installArchive pluginArchive pluginID (plugins.GrafanaVersion opts)) w.
Proof.
  intros [-> | Hok]; unfold Add; [reflexivity|].
  rewrite Hok. by rewrite andb_false_r.
Qed.

Lemma versionAccepted_dec version :
  versionAccepted version \/ (version <> "" /\ isSemVerExpr version = false).
Proof.
  unfold versionAccepted.
  destruct (String.eqb_spec version ""); [by left; left|].
  destruct (isSemVerExpr version); [by left; right|by right].
Qed.

Lemma repoArchive_raises pluginID version gv :
  raises (repoArchive pluginID version gv) upstreamError.
Proof. apply raises_call. done. Qed.

Lemma fsAdd_raises file pluginID : raises (fsAdd file pluginID) upstreamError.
Proof. apply raises_call. done. Qed.

Lemma loadPlugins_raises paths : raises (loadPlugins paths) upstreamError.
Proof.
  intros w e w' H. unfold loadPlugins in H.
  destruct (loader m w paths) as [reg' [detail|]]; [|discriminate H].
  injection H as <- _. done.
Qed.

Lemma downloadDependencies_raises deps gv paths :
  raises (downloadDependencies deps gv paths) upstreamError.
Proof.
  revert paths. induction deps as [|dep deps IH]; intros paths; simpl.
  - apply raises_ret.
  - apply raises_bind; [intros w e w' H; discriminate H|].
    intros _ w e w' H.
    destruct (repoArchive _ _ _ w) as [[d|err] w1].
    + revert H. apply raises_bind; [apply fsAdd_raises|]. intros a. apply IH.
    + injection H as <- _. done.
Qed.

Lemma installArchive_raises a pluginID gv :
  raises (installArchive a pluginID gv) upstreamError.
Proof.
  unfold installArchive.
  apply raises_bind; [apply fsAdd_raises|]. intros ea.
  apply raises_bind; [apply downloadDependencies_raises|]. intros paths.
  apply loadPlugins_raises.
Qed.

Lemma Remove_raises pluginID : raises (Remove pluginID) removeError.
Proof.
  intros w e w' H. unfold Remove in H.
  destruct (plugin (registry w) pluginID) as [p|]; [|by injection H as <- _].
  destruct (plugins.IsExternalPlugin p); simpl in H; [|by injection H as <- _].
  destruct (filepath_Rel _ _) as [path|]; [|by injection H as <- _].
  destruct (String.prefix parentPrefix path); [by injection H as <- _|].
  revert H. apply raises_bind.
  - intros w0 e0 w0' H0. unfold unregisterAndStop in H0.
    destruct (stopFailure m w0 p) as [[detail reg']|]; [|discriminate H0].
    by injection H0 as <- _.
  - intros _. apply raises_call. done.
Qed.

Lemma removeError_not_format e : removeError e -> e <> ErrInvalidPluginVersionFormat.
Proof. by destruct e. Qed.

Lemma upstreamError_not_format e : upstreamError e -> e <> ErrInvalidPluginVersionFormat.
Proof. by destruct e. Qed.

Lemma upstreamError_not_core e : upstreamError e -> e <> ErrInstallCorePlugin.
Proof. by destruct e. Qed.

Lemma updateArchive_raises p pluginID version gv :
  raises (updateArchive p pluginID version gv)
         (fun e => e <> ErrInvalidPluginVersionFormat).
Proof.
  unfold updateArchive.
  destruct (negb (plugins.IsExternalPlugin p)); [by apply raises_fail|].
  destruct (String.eqb (plugins.Info_Version p) version); [by apply raises_fail|].
  apply raises_bind; [by apply raises_call|]. intros dlOpts.
  destruct (String.eqb (repository.Version dlOpts) (plugins.Info_Version p));
    [by apply raises_fail|].
  destruct (String.eqb (repository.PluginZipURL dlOpts) ""
            && String.eqb (repository.Version dlOpts) ""); [by apply raises_fail|].
  apply raises_bind.
  - eapply raises_mono; [apply removeError_not_format|apply Remove_raises].
  - intros _. unfold fetchUpdate. destruct (negb _); by apply raises_call.
Qed.

Lemma resolveArchive_raises pluginID version gv :
  raises (resolveArchive pluginID version gv)
         (fun e => e <> ErrInvalidPluginVersionFormat).
Proof.
  intros w e w' H. unfold resolveArchive in H.
  destruct (plugin (registry w) pluginID) as [p|].
  - exact (updateArchive_raises _ _ _ _ _ _ _ H).
  - apply upstreamError_not_format. exact (repoArchive_raises _ _ _ _ _ _ H).
Qed.

(** ** The version-format check *)

(** C6: a non-empty version token that the constraint parser rejects (the
    parser accepts concrete versions and constraint expressions alike)
    makes [Add] fail with [ErrInvalidPluginVersionFormat] in an unchanged
    world: no repository call, no filesystem call, no registry change;
    and [isSemVerExpr] rejects the empty string. *)
Theorem Add_invalid_version_format pluginID version opts w
  (Hnonempty : version <> "")
  (Hmalformed : semver_NewConstraint version = false) :
  Add pluginID version opts w = (Err ErrInvalidPluginVersionFormat, w)
  /\ isSemVerExpr "" = false.
Proof.
  split; [|apply isSemVerExpr_empty].
  apply Add_rejected; [done|]. by rewrite isSemVerExpr_nonempty.
Qed.

(** C10: with the empty version token [Add] never fails with
    [ErrInvalidPluginVersionFormat]; it runs the archive resolution and the
    installation directly, although [isSemVerExpr] rejects the empty
    string. *)
Theorem Add_empty_version_skips_format_check pluginID opts w :
  (Add pluginID "" opts w).1 <> Err ErrInvalidPluginVersionFormat
  /\ Add pluginID "" opts w =
     (let* pluginArchive := resolveArchive pluginID "" (plugins.GrafanaVersion opts) in
      installArchive pluginArchive pluginID (plugins.GrafanaVersion opts)) w
  /\ isSemVerExpr "" = false.
Proof.
  split; [|split; reflexivity].
  destruct (Add pluginID "" opts w) as [[[]|e] w'] eqn:E; [done|].
  simpl. intros [= ->]. revert E.
  change (Add pluginID "" opts) with
    (let* pluginArchive := resolveArchive pluginID "" (plugins.GrafanaVersion opts) in
     installArchive pluginArchive pluginID (plugins.GrafanaVersion opts)).
  intros E.
  assert (Hr : raises (let* pluginArchive :=
                         resolveArchive pluginID "" (plugins.GrafanaVersion opts) in
                       installArchive pluginArchive pluginID (plugins.GrafanaVersion opts))
                      (fun e => e <> ErrInvalidPluginVersionFormat)).
  { apply raises_bind; [apply resolveArchive_raises|]. intros a.
    eapply raises_mono; [apply upstreamError_not_format|apply installArchive_raises]. }
  by apply (Hr _ _ _ E).
Qed.

(** ** Core plugins *)

(** C3 (amended): for a registered, non-decommissioned core plugin, [Add]
    with a version token that passes the format check fails with
    [ErrInstallCorePlugin], [Add] with any other token fails with
    [ErrInvalidPluginVersionFormat], and [Remove] fails with
    [ErrUninstallCorePlugin]; each of them in an unchanged world. *)
Theorem core_plugin_guard pluginID version opts w p
  (Hreg : registry w !! pluginID = Some p)
  (Hactive : plugins.IsDecommissioned p = false)
  (Hcore : plugins.IsExternalPlugin p = false) :
  (versionAccepted version ->
   Add pluginID version opts w = (Err ErrInstallCorePlugin, w))
  /\ (~ versionAccepted version ->
      Add pluginID version opts w = (Err ErrInvalidPluginVersionFormat, w))
  /\ Remove pluginID w = (Err ErrUninstallCorePlugin, w).
Proof.
  pose proof (plugin_Some _ _ _ Hreg Hactive) as Hp.
  split; [|split].
  - intros Hok. rewrite Add_accepted by done.
    unfold bind, resolveArchive. rewrite Hp. unfold updateArchive.
    by rewrite Hcore.
  - intros Hbad. destruct (versionAccepted_dec version) as [|[Hne Hv]]; [done|].
    by apply Add_rejected.
  - unfold Remove. by rewrite Hp, Hcore.
Qed.

(** C8: when the registry holds a decommissioned core plugin under
    [pluginID], [Add] never fails with [ErrInstallCorePlugin]: the lookup
    reports the plugin as absent, the archive is resolved by fetching
    [pluginID] at the requested version, and once the version token has
    passed the format check [Add] is exactly the fresh installation. *)
Theorem decommissioned_core_plugin_takes_fresh_path pluginID version opts w p
  (Hreg : registry w !! pluginID = Some p)
  (Hdecommissioned : plugins.IsDecommissioned p = true)
  (Hcore : plugins.IsExternalPlugin p = false) :
  (Add pluginID version opts w).1 <> Err ErrInstallCorePlugin
  /\ plugin (registry w) pluginID = None
  /\ resolveArchive pluginID version (plugins.GrafanaVersion opts) w =
     repoArchive pluginID version (plugins.GrafanaVersion opts) w
  /\ (versionAccepted version ->
      Add pluginID version opts w =
      (let* pluginArchive := repoArchive pluginID version (plugins.GrafanaVersion opts) in
       installArchive pluginArchive pluginID (plugins.GrafanaVersion opts)) w).
Proof.
  pose proof (plugin_decommissioned _ _ _ Hreg Hdecommissioned) as Hp.
  assert (Hres : resolveArchive pluginID version (plugins.GrafanaVersion opts) w =
                 repoArchive pluginID version (plugins.GrafanaVersion opts) w).
  { unfold resolveArchive. by rewrite Hp. }
  assert (Hfresh : versionAccepted version ->
      Add pluginID version opts w =
      (let* pluginArchive := repoArchive pluginID version (plugins.GrafanaVersion opts) in
       installArchive pluginArchive pluginID (plugins.GrafanaVersion opts)) w).
  { intros Hok. rewrite Add_accepted by done. unfold bind. by rewrite Hres. }
  split; [|done].
  destruct (versionAccepted_dec version) as [Hok|[Hne Hbad]].
  - rewrite (Hfresh Hok). clear Hfresh.
    assert (Hr : raises (let* pluginArchive :=
                           repoArchive pluginID version (plugins.GrafanaVersion opts) in
                         installArchive pluginArchive pluginID (plugins.GrafanaVersion opts))
                        (fun e => e <> ErrInstallCorePlugin)).
    { apply raises_bind.
      - eapply raises_mono; [apply upstreamError_not_core|apply repoArchive_raises].
      - intros a.
        eapply raises_mono; [apply upstreamError_not_core|apply installArchive_raises]. }
    destruct (bind _ _ w) as [[[]|e] w'] eqn:E; [done|]. simpl. intros [= ->].
    by apply (Hr _ _ _ E).
  - by rewrite Add_rejected.
Qed.

(** ** Duplicate installations *)

(** C5 (amended): for a registered, non-decommissioned external plugin and
    a version token that passes the format check, [Add] fails with
    [DuplicateError] carrying the plugin's id and directory, and leaves the
    registry as it was, when the token equals the installed version (no
    collaborator is called at all) and when the version the repository
    resolves the request to equals the installed version. *)
Theorem duplicate_install_rejected pluginID version opts w p
  (Hreg : registry w !! pluginID = Some p)
  (Hactive : plugins.IsDecommissioned p = false)
  (Hexternal : plugins.IsExternalPlugin p = true)
  (Hformat : versionAccepted version) :
  (plugins.Info_Version p = version ->
   Add pluginID version opts w =
   (Err (DuplicateError (plugins.ID p) (plugins.PluginDir p)), w))
  /\ (forall dlOpts,
        GetPluginDownloadOptions (pluginRepo m) w pluginID version
                                 (plugins.GrafanaVersion opts) = inr dlOpts ->
        repository.Version dlOpts = plugins.Info_Version p ->
        (Add pluginID version opts w).1 =
        Err (DuplicateError (plugins.ID p) (plugins.PluginDir p))
        /\ registry (Add pluginID version opts w).2 = registry w).
Proof.
  pose proof (plugin_Some _ _ _ Hreg Hactive) as Hp.
  assert (Hsame : plugins.Info_Version p = version ->
    Add pluginID version opts w =
    (Err (DuplicateError (plugins.ID p) (plugins.PluginDir p)), w)).
  { intros Hv. rewrite Add_accepted by done.
    unfold bind, resolveArchive. rewrite Hp. unfold updateArchive.
    rewrite Hexternal. simpl. rewrite Hv, String.eqb_refl. reflexivity. }
  split; [done|].
  intros dlOpts Hdl Hres.
  destruct (String.eqb_spec (plugins.Info_Version p) version) as [Hv|Hv].
  - by rewrite (Hsame Hv).
  - assert (Hadd : Add pluginID version opts w =
      (Err (DuplicateError (plugins.ID p) (plugins.PluginDir p)),
       record (CallGetPluginDownloadOptions pluginID version
                 (plugins.GrafanaVersion opts)) w)).
    { rewrite Add_accepted by done.
      unfold bind, resolveArchive. rewrite Hp. unfold updateArchive.
      rewrite Hexternal. simpl.
      destruct (String.eqb_spec (plugins.Info_Version p) version); [done|].
      unfold bind, repoDownloadOptions, call. rewrite Hdl.
      by rewrite Hres, String.eqb_refl. }
    by rewrite Hadd.
Qed.

(** ** Listing plugins *)

Lemma foldl_append_filter {A B} (keep : A -> bool) (f : A -> B) l acc :
  foldl (fun res x => if keep x then res ++ [f x] else res) acc l =
  acc ++ List.map f (List.filter keep l).
Proof.
  revert acc. induction l as [|x l IH]; intros acc; simpl.
  - by rewrite app_nil_r.
  - rewrite IH. destruct (keep x); [|done]. simpl. by rewrite <- app_assoc.
Qed.

Lemma availablePlugins_filter reg :
  availablePlugins reg =
  List.filter (fun p => negb (plugins.IsDecommissioned p)) (registry_Plugins reg).
Proof.
  unfold availablePlugins.
  rewrite (foldl_append_filter (fun p => negb (plugins.IsDecommissioned p)) id).
  simpl. apply List.map_id.
Qed.

Lemma elem_of_foldl_union (l : list string) (acc : gset string) pt :
  pt ∈ foldl (fun acc pt => {[pt]} ∪ acc) acc l <-> pt ∈ l \/ pt ∈ acc.
Proof.
  revert acc. induction l as [|x l IH]; intros acc; simpl.
  - rewrite elem_of_nil. split; [by right|by intros [[]|]].
  - rewrite IH, elem_of_union, elem_of_singleton, elem_of_cons.
    split; [intros [?|[?|?]]|intros [[?|?]|?]]; eauto.
Qed.

Lemma elem_of_requestedTypes pluginTypes pt :
  pt ∈ requestedTypes pluginTypes <-> pt ∈ pluginTypes.
Proof.
  unfold requestedTypes. rewrite elem_of_foldl_union, elem_of_empty.
  split; [by intros [|[]]|by left].
Qed.

Lemma registry_Plugins_spec reg p :
  In p (registry_Plugins reg) <-> exists id, reg !! id = Some p.
Proof.
  unfold registry_Plugins. rewrite <- list_elem_of_In, list_elem_of_fmap. split.
  - intros [[id q] [-> Hin]]. exists id. by apply elem_of_map_to_list.
  - intros [id Hid]. exists (id, p). split; [done|]. by apply elem_of_map_to_list.
Qed.

Lemma filter_filter_andb {A} (f g : A -> bool) l :
  List.filter g (List.filter f l) = List.filter (fun x => f x && g x) l.
Proof.
  induction l as [|x l IH]; simpl; [done|].
  destruct (f x); simpl; [|done]. destruct (g x); by rewrite IH.
Qed.

Lemma Plugins_filter w pluginTypes :
  Plugins w pluginTypes =
  Plugins_spec w (if Nat.eqb (length pluginTypes) 0 then PluginTypes else pluginTypes).
Proof.
  unfold Plugins, Plugins_spec.
  rewrite (foldl_append_filter _ ToDTO). simpl.
  rewrite availablePlugins_filter, filter_filter_andb. f_equal.
  apply List.filter_ext. intros p. unfold wanted. f_equal.
  apply bool_decide_ext, elem_of_requestedTypes.
Qed.

(** C7: with no type given, [Plugins] returns the projection of exactly the
    registered, non-decommissioned plugins whose type is one of the known
    plugin types; with a non-empty list of types, the projection of exactly
    the registered, non-decommissioned plugins whose type is in the list.
    "Exactly": the result is the projection of the filtered enumeration of
    the registry, and a value is in it if and only if it is the projection
    of such a plugin. *)
Theorem Plugins_exact w :
  Plugins w [] = Plugins_spec w PluginTypes
  /\ (forall t ts, Plugins w (t :: ts) = Plugins_spec w (t :: ts))
  /\ (forall types dto,
        In dto (Plugins_spec w types) <->
        exists id p, registry w !! id = Some p
                     /\ plugins.IsDecommissioned p = false
                     /\ plugins.Type_ p ∈ types
                     /\ dto = ToDTO p).
Proof.
  split; [apply Plugins_filter|]. split; [intros t ts; apply Plugins_filter|].
  intros types dto. unfold Plugins_spec. rewrite in_map_iff. split.
  - intros [p [<- Hin]]. apply filter_In in Hin as [Hreg Hw].
    apply registry_Plugins_spec in Hreg as [id Hid].
    unfold wanted in Hw. apply andb_true_iff in Hw as [Hdec Hty].
    exists id, p. repeat split; [done| |by apply bool_decide_eq_true in Hty].
    by destruct (plugins.IsDecommissioned p).
  - intros (id & p & Hid & Hdec & Hty & ->). exists p. split; [done|].
    apply filter_In. split; [apply registry_Plugins_spec; eauto|].
    unfold wanted. rewrite Hdec. simpl. by apply bool_decide_eq_true.
Qed.

(** ** Calls, the trace and the registry *)

Lemma call_Ok {A} ev (answer : World -> string + A) w a w' :
  call ev answer w = (Ok a, w') -> answer w = inr a /\ w' = record ev w.
Proof. unfold call. destruct (answer w); intros [= <- <-]; done. Qed.

Lemma call_Err {A} ev (answer : World -> string + A) w e w' :
  call ev answer w = (Err e, w') ->
  exists detail, answer w = inl detail /\ e = Upstream detail /\ w' = record ev w.
Proof. unfold call. destruct (answer w) as [d|]; intros [= <- <-]; eauto. Qed.

Lemma call_world {A} ev (answer : World -> string + A) w :
  (call ev answer w).2 = record ev w.
Proof. unfold call. by destruct (answer w). Qed.







(** ** Removal *)

Lemma prefix_parentPrefix_bare : String.prefix parentPrefix ".." = false.
Proof. reflexivity. Qed.

Lemma Remove_refused pluginID w p :
  plugin (registry w) pluginID = Some p ->
  plugins.IsExternalPlugin p = true ->
  match filepath_Rel (cfg_PluginsPath m) (plugins.PluginDir p) with
  | None => True
  | Some path => String.prefix parentPrefix path = true
  end ->
  Remove pluginID w = (Err ErrUninstallOutsideOfPluginDir, w).
Proof.
  intros Hp Hext Hrel. unfold Remove. rewrite Hp, Hext. simpl.
  destruct (filepath_Rel _ _) as [path|]; [|done]. by rewrite Hrel.
Qed.

Lemma Remove_inside pluginID w p path :
  plugin (registry w) pluginID = Some p ->
  plugins.IsExternalPlugin p = true ->
  filepath_Rel (cfg_PluginsPath m) (plugins.PluginDir p) = Some path ->
  String.prefix parentPrefix path = false ->
  Remove pluginID w =
  (let* _ := unregisterAndStop p in
   call (CallFsRemove (plugins.PluginDir p))
        (fun w' => fs_Remove (pluginFs m) w' (plugins.PluginDir p))) w.
Proof. intros Hp Hext Hrel Hpre. unfold Remove. by rewrite Hp, Hext, Hrel, Hpre. Qed.


Lemma Remove_Err pluginID w p e w' :
  plugin (registry w) pluginID = Some p ->
  plugins.IsExternalPlugin p = true ->
  Remove pluginID w = (Err e, w') ->
  (e = ErrUninstallOutsideOfPluginDir /\ w' = w)
  \/ (exists detail reg',
        e = Upstream detail
        /\ w' = set_registry reg' (record (CallUnregisterAndStop (plugins.ID p)) w))
  \/ (exists detail, e = Upstream detail /\ w' = removedWorld p w).
Proof.
  intros Hp Hext H. unfold Remove in H. rewrite Hp, Hext in H. simpl in H.
  destruct (filepath_Rel _ _) as [path|]; [|left; by injection H as <- <-].
  destruct (String.prefix _ _); [left; by injection H as <- <-|].
  right. unfold bind, unregisterAndStop in H.
  destruct (stopFailure m w p) as [[detail reg']|].
  - left. injection H as <- <-. eauto.
  - right. apply call_Err in H as (detail & _ & -> & ->). eauto.
Qed.

(** ** The update path of [Add] *)

Lemma bind_at {A B} (c c' : M A) (k : A -> M B) w w' :
  c w = c' w' -> bind c k w = bind c' k w'.
Proof. unfold bind. by intros ->. Qed.


Lemma resolveArchive_updating pluginID version opts w p dlOpts :
  updating pluginID version opts w p dlOpts ->
  resolveArchive pluginID version (plugins.GrafanaVersion opts) w =
  (let* _ := Remove (plugins.ID p) in
   fetchUpdate dlOpts pluginID (plugins.GrafanaVersion opts))
    (resolvedWorld pluginID version opts w).
Proof.
  intros (Hreg & Hid & Hact & Hext & Hfmt & Hver & Hdl & Hnew & Hknown).
  unfold resolveArchive. rewrite (plugin_Some _ _ _ Hreg Hact).
  unfold updateArchive. rewrite Hext. simpl.
  destruct (String.eqb_spec (plugins.Info_Version p) version); [done|].
  unfold bind at 1. unfold repoDownloadOptions, call. rewrite Hdl.
  destruct (String.eqb_spec (repository.Version dlOpts) (plugins.Info_Version p)); [done|].
  destruct (String.eqb_spec (repository.PluginZipURL dlOpts) ""); simpl; [|done].
  destruct (String.eqb_spec (repository.Version dlOpts) ""); [|done].
  by destruct Hknown.
Qed.

Lemma Add_updating pluginID version opts w p dlOpts :
  updating pluginID version opts w p dlOpts ->
  Add pluginID version opts w =
  (let* pluginArchive :=
     (let* _ := Remove (plugins.ID p) in
      fetchUpdate dlOpts pluginID (plugins.GrafanaVersion opts)) in
   installArchive pluginArchive pluginID (plugins.GrafanaVersion opts))
    (resolvedWorld pluginID version opts w).
Proof.
  intros Hupd. pose proof Hupd as (_ & _ & _ & _ & Hfmt & _).
  rewrite Add_accepted by done. apply bind_at.
  by apply resolveArchive_updating.
Qed.

Lemma updating_plugin pluginID version opts w p dlOpts :
  updating pluginID version opts w p dlOpts ->
  plugin (registry (resolvedWorld pluginID version opts w)) (plugins.ID p) = Some p
  /\ plugins.IsExternalPlugin p = true.
Proof.
  intros (Hreg & Hid & Hact & Hext & _). split; [|done].
  simpl. rewrite Hid. by apply plugin_Some.
Qed.


(** C9 (amended): on the update path, when [Remove] fails, [Add] returns
    that error in the world [Remove] left, so no archive is fetched,
    nothing is extracted and nothing is loaded.  When the failure is one of
    [Remove]'s guards (the outside-plugin-dir error), nothing at all has
    happened since the version resolution and the plugin is registered as
    before.  Otherwise the error is a collaborator's: unregister-and-stop
    failed, or it succeeded and the deletion of the directory failed, in
    which case the plugin is unregistered already. *)
Theorem update_aborts_when_Remove_fails pluginID version opts w p dlOpts e w'
  (Hupdate : updating pluginID version opts w p dlOpts)
  (Hremove : Remove (plugins.ID p) (resolvedWorld pluginID version opts w) = (Err e, w')) :
  Add pluginID version opts w = (Err e, w')
  /\ ((e = ErrUninstallOutsideOfPluginDir
       /\ w' = resolvedWorld pluginID version opts w
       /\ registry w' !! pluginID = Some p)
      \/ (exists detail,
            e = Upstream detail
            /\ trace w' =
               trace w ++ [CallGetPluginDownloadOptions pluginID version
                             (plugins.GrafanaVersion opts);
                           CallUnregisterAndStop pluginID])
      \/ (exists detail,
            e = Upstream detail
            /\ trace w' =
               trace w ++ [CallGetPluginDownloadOptions pluginID version
                             (plugins.GrafanaVersion opts);
                           CallUnregisterAndStop pluginID;
                           CallFsRemove (plugins.PluginDir p)]
            /\ registry w' !! pluginID = None)).
Proof.
  pose proof (Add_updating _ _ _ _ _ _ Hupdate) as HAdd.
  pose proof (updating_plugin _ _ _ _ _ _ Hupdate) as [Hp Hext].
  pose proof Hupdate as (Hreg & Hid & _).
  split; [rewrite HAdd; unfold bind; by rewrite Hremove|].
  destruct (Remove_Err _ _ _ _ _ Hp Hext Hremove)
    as [[-> ->]|[(detail & reg' & -> & ->)|(detail & -> & ->)]].
  - left. done.
  - right; left. exists detail. split; [done|]. simpl.
    rewrite Hid. by rewrite <- app_assoc.
  - right; right. exists detail. split; [done|]. simpl. rewrite Hid. split.
    + by rewrite <- !app_assoc.
    + apply lookup_delete_eq.
Qed.

(** ** Dependencies *)

Lemma downloadDependencies_Err deps gv paths w1 e w2 :
  downloadDependencies deps gv paths w1 = (Err e, w2) ->
  registry w2 = registry w1
  /\ (exists added, trace w2 = trace w1 ++ added /\ Forall depEvent added)
  /\ exists dep,
       In dep deps
       /\ ((exists detail,
              e = Wrapf (downloadFailed dep) (Upstream detail)
              /\ last (trace w2) =
                 Some (CallGetPluginArchive (storage.ID dep) (storage.Version dep) gv))
           \/ (exists detail file,
                 e = Upstream detail
                 /\ last (trace w2) =
                    Some (CallFsAdd file (storage.ID dep) (cfg_PluginsPath m)))).
Proof.
  revert paths w1. induction deps as [|dep deps IH]; intros paths w1 H; [done|].
  simpl in H. unfold bind at 1 in H. simpl in H.
  set (wl := record (LogInfo "Fetching %s dependencies..." (storage.ID dep)) w1) in *.
  destruct (repoArchive _ _ _ wl) as [[d|err] wf] eqn:Hfetch.
  - unfold repoArchive in Hfetch. apply call_Ok in Hfetch as [_ ->].
    unfold bind in H.
    destruct (fsAdd _ _ _) as [[depArchive|err] wx] eqn:Hadd.
    + unfold fsAdd in Hadd. apply call_Ok in Hadd as [_ ->].
      apply IH in H as (Hreg & (added & Htr & Hall) & dep' & Hin & Hcase).
      split; [by rewrite Hreg|]. split.
      * eexists. split; [rewrite Htr; simpl; rewrite <- !app_assoc; reflexivity|].
        repeat (apply Forall_cons; split; [done|]). exact Hall.
      * exists dep'. split; [by right|done].
    + unfold fsAdd in Hadd. apply call_Err in Hadd as (detail & _ & -> & ->).
      injection H as <- <-. split; [done|]. split.
      * eexists. split; [simpl; rewrite <- !app_assoc; reflexivity|].
        repeat (apply Forall_cons; split; [done|]). apply Forall_nil; done.
      * exists dep. split; [by left|]. right. exists detail, (repository.File d).
        split; [done|]. simpl. apply last_snoc.
  - unfold repoArchive in Hfetch. apply call_Err in Hfetch as (detail & _ & -> & ->).
    injection H as <- <-. split; [done|]. split.
    + eexists. split; [simpl; rewrite <- !app_assoc; reflexivity|].
      repeat (apply Forall_cons; split; [done|]). apply Forall_nil; done.
    + exists dep. split; [by left|]. left. exists detail.
      split; [done|]. simpl. apply last_snoc.
Qed.

(** ** The bare parent directory *)

(** When the relative path is exactly [".."], the prefix test lets the
    removal through: the plugin is unregistered and the deletion of its
    directory is requested. *)
Lemma Remove_bare_parent pluginID w p :
  plugin (registry w) pluginID = Some p ->
  plugins.IsExternalPlugin p = true ->
  filepath_Rel (cfg_PluginsPath m) (plugins.PluginDir p) = Some ".." ->
  stopFailure m w p = None ->
  (Remove pluginID w).2 = removedWorld p w
  /\ (Remove pluginID w).1 <> Err ErrUninstallOutsideOfPluginDir.
Proof.
  intros Hp Hext Hrel Hstop.
  rewrite (Remove_inside _ _ _ _ Hp Hext Hrel prefix_parentPrefix_bare).
  unfold bind, unregisterAndStop. rewrite Hstop. unfold call.
  destruct (fs_Remove _ _ _); done.
Qed.

(** * Further properties of the store *)

(** ** Lookup and listing *)

(** X1: listing and lookup agree.  Every value that [Plugins] returns, for
    whatever types, is what [Plugin] returns for some identifier; and a
    plugin that [plugin] finds is listed when its own type is asked for. *)
Theorem Plugins_Plugin_agree w :
  (forall types dto, In dto (Plugins w types) -> exists id, Plugin w id = Some dto)
  /\ (forall id p, plugin (registry w) id = Some p ->
        Plugin w id = Some (ToDTO p)
        /\ In (ToDTO p) (Plugins w [plugins.Type_ p])).
Proof.
  split.
  - intros types dto. rewrite Plugins_filter. unfold Plugins_spec.
    rewrite in_map_iff. intros [p [<- Hin]].
    apply filter_In in Hin as [Hreg Hw].
    apply registry_Plugins_spec in Hreg as [id Hid].
    unfold wanted in Hw. apply andb_true_iff in Hw as [Hdec _].
    exists id. unfold Plugin.
    rewrite (plugin_Some _ _ _ Hid); [done|].
    by destruct (plugins.IsDecommissioned p).
  - intros id p Hp. split; [unfold Plugin; by rewrite Hp|].
    apply plugin_inv in Hp as [Hid Hact].
    rewrite Plugins_filter. simpl. unfold Plugins_spec.
    apply in_map, filter_In. split; [apply registry_Plugins_spec; eauto|].
    unfold wanted. rewrite Hact. simpl.
    apply bool_decide_eq_true, list_elem_of_singleton. reflexivity.
Qed.

(** X2: the listing depends on which types are asked for, not on their
    order or on repetitions. *)
Theorem Plugins_types_as_set w t ts t' ts'
  (Hsame : forall x, x ∈ t :: ts <-> x ∈ t' :: ts') :
  Plugins w (t :: ts) = Plugins w (t' :: ts').
Proof.
  rewrite !Plugins_filter. simpl. unfold Plugins_spec. f_equal.
  apply List.filter_ext. intros p. unfold wanted. f_equal.
  apply bool_decide_ext, Hsame.
Qed.

Lemma elem_of_foldl_ids (l : list plugins.Plugin) (acc : gset string) id :
  id ∈ foldl (fun pluginsByID p => {[plugins.ID p]} ∪ pluginsByID) acc l
  <-> (exists p, In p l /\ plugins.ID p = id) \/ id ∈ acc.
Proof.
  revert acc. induction l as [|q l IH]; intros acc; simpl.
  - split; [by right|]. by intros [[p [[] _]]|].
  - rewrite IH, elem_of_union, elem_of_singleton. split.
    + intros [[p [Hin Hid]]|[->|Hacc]]; eauto.
    + intros [[p [[->|Hin] Hid]]|Hacc]; eauto.
Qed.

(** X3: [registeredPlugins] holds exactly the identifiers of the plugins in
    the registry, the decommissioned ones included. *)
Theorem registeredPlugins_spec reg id :
  id ∈ registeredPlugins reg <-> exists k p, reg !! k = Some p /\ plugins.ID p = id.
Proof.
  unfold registeredPlugins. rewrite elem_of_foldl_ids, elem_of_empty. split.
  - intros [[p [Hin Hid]]|[]]. apply registry_Plugins_spec in Hin as [k Hk]. eauto.
  - intros (k & p & Hk & Hid). left. exists p. split; [|done].
    apply registry_Plugins_spec. eauto.
Qed.

(** X4: when the registry files every plugin under its own identifier,
    [registeredPlugins] is the set of keys of the registry. *)
Theorem registeredPlugins_keyed reg (Hkeyed : keyed reg) :
  registeredPlugins reg = dom reg.
Proof.
  apply set_eq. intros id. unfold registeredPlugins.
  rewrite elem_of_foldl_ids, elem_of_empty, elem_of_dom. split.
  - intros [[p [Hin Hid]]|[]]. apply registry_Plugins_spec in Hin as [k Hk].
    rewrite <- Hid, (Hkeyed _ _ Hk). eauto.
  - intros [p Hp]. left. exists p. split; [apply registry_Plugins_spec; eauto|].
    by apply Hkeyed.
Qed.

(** ** The guards of [Remove] *)

(** X5: [Remove] fails with [ErrPluginNotInstalled] exactly when the
    registry has no entry under the identifier or the entry is
    decommissioned, and then nothing has happened. *)
Theorem Remove_not_installed_iff pluginID w :
  (registry w !! pluginID = None
   \/ exists p, registry w !! pluginID = Some p /\ plugins.IsDecommissioned p = true)
  <-> Remove pluginID w = (Err ErrPluginNotInstalled, w).
Proof.
  split.
  - intros H. unfold Remove.
    assert (plugin (registry w) pluginID = None) as ->; [|done].
    destruct H as [H|(p & Hp & Hdec)]; unfold plugin; rewrite ?H, ?Hp, ?Hdec; done.
  - intros H. destruct (plugin (registry w) pluginID) as [p|] eqn:Hp.
    + exfalso. unfold Remove in H. rewrite Hp in H.
      destruct (negb _); [done|]. destruct (filepath_Rel _ _); [|done].
      destruct (String.prefix _ _); [done|].
      unfold bind, unregisterAndStop in H.
      destruct (stopFailure m w p) as [[detail reg']|]; [done|].
      unfold call in H. by destruct (fs_Remove _ _ _).
    + unfold plugin in Hp. destruct (registry w !! pluginID) as [p|]; [|by left].
      right. exists p. split; [done|]. by destruct (plugins.IsDecommissioned p).
Qed.

(** X6: for a registered, active, external plugin whose directory cannot
    be made relative to the plugins root, or whose relative path starts
    with [".."] followed by the separator, [Remove] fails with
    [ErrUninstallOutsideOfPluginDir] and nothing has happened: the plugin
    is neither unregistered nor deleted. *)
Theorem Remove_refuses_traversal pluginID w p
  (Hreg : registry w !! pluginID = Some p)
  (Hactive : plugins.IsDecommissioned p = false)
  (Hexternal : plugins.IsExternalPlugin p = true)
  (Hescapes : filepath_Rel (cfg_PluginsPath m) (plugins.PluginDir p) = None
              \/ exists path,
                   filepath_Rel (cfg_PluginsPath m) (plugins.PluginDir p) = Some path
                   /\ String.prefix parentPrefix path = true) :
  Remove pluginID w = (Err ErrUninstallOutsideOfPluginDir, w).
Proof.
  apply (Remove_refused _ _ p); [by apply plugin_Some|done|].
  destruct Hescapes as [->|(path & -> & Hpre)]; done.
Qed.


(** ** Which error [Add] returns, and when *)

Lemma bind_bind {A B C} (c : M A) (f : A -> M B) (k : B -> M C) w :
  bind (bind c f) k w = bind c (fun a => bind (f a) k) w.
Proof. unfold bind. by destruct (c w) as [[a|e] w1]. Qed.

Lemma bind_call {A B} ev (answer : World -> string + A) (k : A -> M B) w :
  bind (call ev answer) k w =
  match answer w with
  | inr a => k a (record ev w)
  | inl detail => (Err (Upstream detail), record ev w)
  end.
Proof. unfold bind, call. by destruct (answer w). Qed.

Lemma bind_fail {A B} e (k : A -> M B) w : bind (fail e) k w = (Err e, w).
Proof. reflexivity. Qed.

Lemma fetchUpdate_raises dlOpts pluginID gv :
  raises (fetchUpdate dlOpts pluginID gv) upstreamError.
Proof. unfold fetchUpdate. destruct (negb _); by apply raises_call. Qed.

(** The errors of the update branch once the plugin is known to be
    external: the duplicate error, the undetermined-options error, an
    error of [Remove], or a collaborator's. *)
Lemma updateArchive_external_raises (P : error -> Prop) p pluginID version gv :
  plugins.IsExternalPlugin p = true ->
  P (DuplicateError (plugins.ID p) (plugins.PluginDir p)) ->
  (forall msg, P (Errorf msg)) ->
  (forall e, removeError e -> P e) ->
  raises (updateArchive p pluginID version gv) P.
Proof.
  intros Hext Hdup Herrorf Hremove. unfold updateArchive. rewrite Hext. simpl.
  assert (Hup : forall d, P (Upstream d)) by (intros d; by apply Hremove).
  destruct (String.eqb _ version); [by apply raises_fail|].
  apply raises_bind; [by apply raises_call|]. intros dlOpts.
  destruct (String.eqb (repository.Version dlOpts) _); [by apply raises_fail|].
  destruct (_ && _); [by apply raises_fail|].
  apply raises_bind.
  - eapply raises_mono; [apply Hremove|apply Remove_raises].
  - intros _. unfold fetchUpdate. destruct (negb _); by apply raises_call.
Qed.

Lemma Add_accepted_raises pluginID version opts :
  versionAccepted version ->
  raises (Add pluginID version opts) (fun e => e <> ErrInvalidPluginVersionFormat).
Proof.
  intros Hok w e w' H. rewrite Add_accepted in H by done.
  refine (raises_bind _ _ (fun e => e <> ErrInvalidPluginVersionFormat) _ _ _ _ _ H).
  - apply resolveArchive_raises.
  - intros a.
    eapply raises_mono; [apply upstreamError_not_format|apply installArchive_raises].
Qed.

(** X8: [Add] fails with [ErrInvalidPluginVersionFormat] exactly when the
    version token is not empty and the constraint parser rejects it. *)
Theorem Add_format_error_iff pluginID version opts w :
  (Add pluginID version opts w).1 = Err ErrInvalidPluginVersionFormat
  <-> version <> "" /\ semver_NewConstraint version = false.
Proof.
  split.
  - intros H. destruct (versionAccepted_dec version) as [Hok|[Hne Hbad]].
    + destruct (Add pluginID version opts w) as [r w'] eqn:E. simpl in H. subst r.
      by destruct (Add_accepted_raises _ _ _ Hok _ _ _ E).
    + by rewrite <- isSemVerExpr_nonempty.
  - intros [Hne Hbad]. rewrite Add_rejected; [done|done|].
    by rewrite isSemVerExpr_nonempty.
Qed.

(** X9: [Add] fails with [ErrInstallCorePlugin] exactly when the version
    token passes the format check and the identifier names a registered,
    non-decommissioned core plugin. *)
Theorem Add_core_error_iff pluginID version opts w :
  (Add pluginID version opts w).1 = Err ErrInstallCorePlugin
  <-> versionAccepted version
      /\ exists p, plugin (registry w) pluginID = Some p
                   /\ plugins.IsExternalPlugin p = false.
Proof.
  split.
  - intros H. destruct (versionAccepted_dec version) as [Hok|[Hne Hbad]];
      [|by rewrite Add_rejected in H].
    split; [done|].
    destruct (Add pluginID version opts w) as [r w'] eqn:E. simpl in H. subst r.
    rewrite Add_accepted in E by done.
    destruct (plugin (registry w) pluginID) as [p|] eqn:Hp.
    + destruct (plugins.IsExternalPlugin p) eqn:Hext; [|eauto].
      exfalso. revert E. unfold bind at 1, resolveArchive. rewrite Hp.
      fold (bind (updateArchive p pluginID version (plugins.GrafanaVersion opts))
                 (fun a => installArchive a pluginID (plugins.GrafanaVersion opts)) w).
      intros E.
      refine (raises_bind _ _ (fun e => e <> ErrInstallCorePlugin) _ _ _ _ _ E eq_refl).
      * apply updateArchive_external_raises; try done. by intros [].
      * intros a. eapply raises_mono; [apply upstreamError_not_core|].
        apply installArchive_raises.
    + exfalso. revert E. unfold bind at 1, resolveArchive. rewrite Hp.
      fold (bind (repoArchive pluginID version (plugins.GrafanaVersion opts))
                 (fun a => installArchive a pluginID (plugins.GrafanaVersion opts)) w).
      intros E.
      refine (raises_bind _ _ (fun e => e <> ErrInstallCorePlugin) _ _ _ _ _ E eq_refl).
      * eapply raises_mono; [apply upstreamError_not_core|apply repoArchive_raises].
      * intros a. eapply raises_mono; [apply upstreamError_not_core|].
        apply installArchive_raises.
  - intros [Hok (p & Hp & Hcore)]. rewrite Add_accepted by done.
    unfold bind, resolveArchive. rewrite Hp. unfold updateArchive. by rewrite Hcore.
Qed.

(** X10: [Add] returns a [DuplicateError] only for a registered, active,
    external plugin, and only with that plugin's identifier and directory;
    the registry is then as it was, and either the token equals the
    installed version and nothing has happened, or the repository resolved
    the request to the installed version and only that resolution has
    happened. *)
Theorem Add_duplicate_only_for_installed pluginID version opts w a b w'
  (Hduplicate : Add pluginID version opts w = (Err (DuplicateError a b), w')) :
  exists p,
    plugin (registry w) pluginID = Some p
    /\ plugins.IsExternalPlugin p = true
    /\ a = plugins.ID p /\ b = plugins.PluginDir p
    /\ registry w' = registry w
    /\ ((plugins.Info_Version p = version /\ w' = w)
        \/ (exists dlOpts,
              GetPluginDownloadOptions (pluginRepo m) w pluginID version
                                       (plugins.GrafanaVersion opts) = inr dlOpts
              /\ repository.Version dlOpts = plugins.Info_Version p
              /\ w' = resolvedWorld pluginID version opts w)).
Proof.
  rename Hduplicate into H.
  destruct (versionAccepted_dec version) as [Hok|[Hne Hbad]];
    [|by rewrite Add_rejected in H].
  rewrite Add_accepted in H by done.
  set (k := fun a0 => installArchive a0 pluginID (plugins.GrafanaVersion opts)) in *.
  assert (Hk : forall a0, raises (k a0) (fun e => forall x y, e <> DuplicateError x y)).
  { intros a0. eapply raises_mono; [|apply installArchive_raises]. by intros []. }
  destruct (plugin (registry w) pluginID) as [p|] eqn:Hp.
  2:{ exfalso.
      rewrite (bind_at _ (repoArchive pluginID version (plugins.GrafanaVersion opts))
                 _ w w) in H by (unfold resolveArchive; by rewrite Hp).
      refine (raises_bind _ _ (fun e => forall x y, e <> DuplicateError x y)
                          _ Hk _ _ _ H a b eq_refl).
      eapply raises_mono; [|apply repoArchive_raises]. by intros []. }
  rewrite (bind_at _ (updateArchive p pluginID version (plugins.GrafanaVersion opts))
             _ w w) in H by (unfold resolveArchive; by rewrite Hp).
  exists p. split; [done|]. unfold updateArchive in H.
  destruct (plugins.IsExternalPlugin p); simpl in H; [|done]. split; [done|].
  destruct (String.eqb_spec (plugins.Info_Version p) version) as [Hv|Hv].
  { rewrite bind_fail in H. injection H as <- <- <-. eauto 10. }
  rewrite bind_bind in H. unfold repoDownloadOptions in H. rewrite bind_call in H.
  destruct (GetPluginDownloadOptions _ _ _ _ _) as [detail|dlOpts] eqn:Hdl; [done|].
  destruct (String.eqb_spec (repository.Version dlOpts) (plugins.Info_Version p))
    as [Hres|Hres].
  { rewrite bind_fail in H. injection H as <- <- <-.
    repeat split; try done. right. eauto. }
  destruct (_ && _); [by rewrite bind_fail in H|].
  exfalso.
  refine (raises_bind _ _ (fun e => forall x y, e <> DuplicateError x y)
                      _ Hk _ _ _ H a b eq_refl).
  apply raises_bind.
  - eapply raises_mono; [|apply Remove_raises]. by intros [].
  - intros _. eapply raises_mono; [|apply fetchUpdate_raises]. by intros [].
Qed.

(** X11: when the repository cannot resolve the update of a registered,
    active, external plugin, [Add] returns the repository's error after
    that one call: the installation is not removed and stays registered. *)
Theorem Add_resolution_failure_keeps_plugin pluginID version opts w p detail
  (Hreg : registry w !! pluginID = Some p)
  (Hactive : plugins.IsDecommissioned p = false)
  (Hexternal : plugins.IsExternalPlugin p = true)
  (Hformat : versionAccepted version)
  (Hversion : plugins.Info_Version p <> version)
  (Hfails : GetPluginDownloadOptions (pluginRepo m) w pluginID version
                                     (plugins.GrafanaVersion opts) = inl detail) :
  Add pluginID version opts w
  = (Err (Upstream detail), resolvedWorld pluginID version opts w)
  /\ registry (resolvedWorld pluginID version opts w) !! pluginID = Some p.
Proof.
  split; [|done]. rewrite Add_accepted by done.
  rewrite (bind_at _ (updateArchive p pluginID version (plugins.GrafanaVersion opts))
             _ w w)
    by (unfold resolveArchive; by rewrite (plugin_Some _ _ _ Hreg Hactive)).
  unfold updateArchive. rewrite Hexternal. simpl.
  destruct (String.eqb_spec (plugins.Info_Version p) version); [done|].
  rewrite bind_bind. unfold repoDownloadOptions. rewrite bind_call. by rewrite Hfails.
Qed.

(** X12: when the repository answers the update of a registered, active,
    external plugin with neither a URL nor a version, [Add] stops before
    the removal: if the installed version is not the empty string it fails
    with the message that names the plugin, and if the installed version is
    the empty string the empty resolved version counts as a duplicate.  In
    both cases the installation stays registered. *)
Theorem Add_undetermined_update_options pluginID version opts w p dlOpts
  (Hreg : registry w !! pluginID = Some p)
  (Hactive : plugins.IsDecommissioned p = false)
  (Hexternal : plugins.IsExternalPlugin p = true)
  (Hformat : versionAccepted version)
  (Hversion : plugins.Info_Version p <> version)
  (Hresolved : GetPluginDownloadOptions (pluginRepo m) w pluginID version
                                        (plugins.GrafanaVersion opts) = inr dlOpts)
  (Hurl : repository.PluginZipURL dlOpts = "")
  (Hnone : repository.Version dlOpts = "") :
  Add pluginID version opts w
  = (Err (if String.eqb (plugins.Info_Version p) ""
          then DuplicateError (plugins.ID p) (plugins.PluginDir p)
          else Errorf ("could not determine update options for " ++ pluginID)%string),
     resolvedWorld pluginID version opts w)
  /\ registry (resolvedWorld pluginID version opts w) !! pluginID = Some p.
Proof.
  split; [|done]. rewrite Add_accepted by done.
  rewrite (bind_at _ (updateArchive p pluginID version (plugins.GrafanaVersion opts))
             _ w w)
    by (unfold resolveArchive; by rewrite (plugin_Some _ _ _ Hreg Hactive)).
  unfold updateArchive. rewrite Hexternal. simpl.
  destruct (String.eqb_spec (plugins.Info_Version p) version); [done|].
  rewrite bind_bind. unfold repoDownloadOptions. rewrite bind_call, Hresolved.
  rewrite Hurl, Hnone. rewrite (String.eqb_sym "" (plugins.Info_Version p)).
  by destruct (String.eqb (plugins.Info_Version p) "").
Qed.

(** X13: a first installation (no active plugin under the identifier) that
    fails early.  When the repository does not deliver the archive, [Add]
    returns the repository's error as it is after that one call; when the
    archive arrives and its extraction fails, [Add] returns the
    filesystem's error as it is after those two calls.  Neither a
    dependency nor the loader is reached, and the registry is untouched. *)
Theorem Add_fresh_install_early_failure pluginID version opts w
  (Habsent : plugin (registry w) pluginID = None)
  (Hformat : versionAccepted version) :
  let fetch := CallGetPluginArchive pluginID version (plugins.GrafanaVersion opts) in
  (forall detail,
      GetPluginArchive (pluginRepo m) w pluginID version (plugins.GrafanaVersion opts)
      = inl detail ->
      Add pluginID version opts w = (Err (Upstream detail), record fetch w))
  /\ (forall a detail,
        GetPluginArchive (pluginRepo m) w pluginID version (plugins.GrafanaVersion opts)
        = inr a ->
        fs_Add (pluginFs m) (record fetch w) (repository.File a) pluginID
               (cfg_PluginsPath m) = inl detail ->
        Add pluginID version opts w
        = (Err (Upstream detail),
           record (CallFsAdd (repository.File a) pluginID (cfg_PluginsPath m))
                  (record fetch w))).
Proof.
  intros fetch. subst fetch.
  assert (HAdd : Add pluginID version opts w =
    (let* a := repoArchive pluginID version (plugins.GrafanaVersion opts) in
     installArchive a pluginID (plugins.GrafanaVersion opts)) w).
  { rewrite Add_accepted by done. apply bind_at. unfold resolveArchive.
    by rewrite Habsent. }
  split.
  - intros detail Hfetch. rewrite HAdd. unfold repoArchive.
    by rewrite bind_call, Hfetch.
  - intros a detail Hfetch Hextract. rewrite HAdd. unfold repoArchive.
    rewrite bind_call, Hfetch. unfold installArchive, fsAdd.
    by rewrite bind_call, Hextract.
Qed.

(** ** The dependency loop, by what the collaborators answer *)

Lemma downloadDependencies_step dep deps gv paths w d depArchive :
  GetPluginArchive (pluginRepo m)
    (record (LogInfo "Fetching %s dependencies..." (storage.ID dep)) w)
    (storage.ID dep) (storage.Version dep) gv = inr d ->
  fs_Add (pluginFs m)
    (record (CallGetPluginArchive (storage.ID dep) (storage.Version dep) gv)
       (record (LogInfo "Fetching %s dependencies..." (storage.ID dep)) w))
    (repository.File d) (storage.ID dep) (cfg_PluginsPath m) = inr depArchive ->
  downloadDependencies (dep :: deps) gv paths w
  = downloadDependencies deps gv (paths ++ [storage.Path depArchive])
                         (dependencyWorld gv dep d w).
Proof.
  intros Hfetch Hextract. simpl. unfold bind at 1, emit.
  unfold repoArchive, call. rewrite Hfetch.
  unfold fsAdd. rewrite bind_call. by rewrite Hextract.
Qed.

Lemma downloadDependencies_fetch_fails dep deps gv paths w detail :
  GetPluginArchive (pluginRepo m)
    (record (LogInfo "Fetching %s dependencies..." (storage.ID dep)) w)
    (storage.ID dep) (storage.Version dep) gv = inl detail ->
  downloadDependencies (dep :: deps) gv paths w
  = (Err (Wrapf (downloadFailed dep) (Upstream detail)),
     record (CallGetPluginArchive (storage.ID dep) (storage.Version dep) gv)
       (record (LogInfo "Fetching %s dependencies..." (storage.ID dep)) w)).
Proof.
  intros Hfetch. simpl. unfold bind at 1, emit.
  unfold repoArchive, call. by rewrite Hfetch.
Qed.

Lemma downloadDependencies_extract_fails dep deps gv paths w d detail :
  GetPluginArchive (pluginRepo m)
    (record (LogInfo "Fetching %s dependencies..." (storage.ID dep)) w)
    (storage.ID dep) (storage.Version dep) gv = inr d ->
  fs_Add (pluginFs m)
    (record (CallGetPluginArchive (storage.ID dep) (storage.Version dep) gv)
       (record (LogInfo "Fetching %s dependencies..." (storage.ID dep)) w))
    (repository.File d) (storage.ID dep) (cfg_PluginsPath m) = inl detail ->
  downloadDependencies (dep :: deps) gv paths w
  = (Err (Upstream detail), dependencyWorld gv dep d w).
Proof.
  intros Hfetch Hextract. simpl. unfold bind at 1, emit.
  unfold repoArchive, call. rewrite Hfetch.
  unfold fsAdd. rewrite bind_call. by rewrite Hextract.
Qed.

(** Once the collaborators have answered for a prefix of the declared
    dependencies, the loop goes on with the rest, from the world and with
    the paths it has reached. *)
Lemma downloadDependencies_prefix pre rest gv paths answers w :
  dependenciesAnswered gv pre answers w ->
  downloadDependencies (pre ++ rest) gv paths w
  = downloadDependencies rest gv (paths ++ extractedPaths answers)
                         (afterDependencies gv pre answers w).
Proof.
  revert paths answers w.
  induction pre as [|dep pre IH]; intros paths [|[d depArchive] answers] w H;
    try done.
  - simpl. by rewrite app_nil_r.
  - destruct H as (Hfetch & Hextract & Hrest).
    change ((dep :: pre) ++ rest) with (dep :: (pre ++ rest)).
    rewrite (downloadDependencies_step _ _ _ _ _ _ _ Hfetch Hextract).
    rewrite (IH _ _ _ Hrest). simpl. by rewrite <- app_assoc.
Qed.

Lemma downloadDependencies_answered deps gv paths answers w :
  dependenciesAnswered gv deps answers w ->
  downloadDependencies deps gv paths w
  = (Ok (paths ++ extractedPaths answers), afterDependencies gv deps answers w).
Proof.
  intros H. rewrite <- (app_nil_r deps) at 1.
  by rewrite (downloadDependencies_prefix _ [] _ _ _ _ H).
Qed.

Lemma downloadDependencies_Ok_inv deps gv paths w ps w' :
  downloadDependencies deps gv paths w = (Ok ps, w') ->
  exists answers,
    dependenciesAnswered gv deps answers w
    /\ ps = paths ++ extractedPaths answers
    /\ w' = afterDependencies gv deps answers w.
Proof.
  revert paths w. induction deps as [|dep deps IH]; intros paths w H.
  - injection H as <- <-. exists []. simpl. by rewrite app_nil_r.
  - destruct (GetPluginArchive (pluginRepo m)
                (record (LogInfo "Fetching %s dependencies..." (storage.ID dep)) w)
                (storage.ID dep) (storage.Version dep) gv) as [detail|d] eqn:Hfetch;
      [by rewrite (downloadDependencies_fetch_fails _ _ _ _ _ _ Hfetch) in H|].
    destruct (fs_Add (pluginFs m)
                (record (CallGetPluginArchive (storage.ID dep) (storage.Version dep) gv)
                   (record (LogInfo "Fetching %s dependencies..." (storage.ID dep)) w))
                (repository.File d) (storage.ID dep) (cfg_PluginsPath m))
      as [detail|depArchive] eqn:Hextract;
      [by rewrite (downloadDependencies_extract_fails _ _ _ _ _ _ _ Hfetch Hextract) in H|].
    rewrite (downloadDependencies_step _ _ _ _ _ _ _ Hfetch Hextract) in H.
    apply IH in H as (answers & Hanswered & -> & ->).
    exists ((d, depArchive) :: answers). simpl. by rewrite <- app_assoc.
Qed.

Lemma afterDependencies_world gv deps answers w :
  dependenciesAnswered gv deps answers w ->
  trace (afterDependencies gv deps answers w)
  = trace w ++ dependenciesTrace gv deps (fetchedFiles answers)
  /\ registry (afterDependencies gv deps answers w) = registry w.
Proof.
  revert answers w.
  induction deps as [|dep deps IH]; intros [|[d depArchive] answers] w H; try done.
  - simpl. by rewrite app_nil_r.
  - destruct H as (_ & _ & Hrest). destruct (IH _ _ Hrest) as [Htrace Hreg].
    simpl. rewrite Htrace, Hreg. simpl. by rewrite <- !app_assoc.
Qed.

(** Every run of the loop is one of three: the collaborators answer for
    every dependency, or they answer for the dependencies before some
    [dep] and then the repository fails to deliver [dep], or it delivers
    [dep] and the filesystem fails to extract it. *)
Lemma downloadDependencies_outcomes deps gv w :
  (exists answers, dependenciesAnswered gv deps answers w)
  \/ exists pre dep post answers,
       deps = pre ++ dep :: post
       /\ dependenciesAnswered gv pre answers w
       /\ let wl := record (LogInfo "Fetching %s dependencies..." (storage.ID dep))
                           (afterDependencies gv pre answers w) in
          (exists detail,
              GetPluginArchive (pluginRepo m) wl (storage.ID dep) (storage.Version dep) gv
              = inl detail)
          \/ (exists d detail,
                GetPluginArchive (pluginRepo m) wl (storage.ID dep) (storage.Version dep) gv
                = inr d
                /\ fs_Add (pluginFs m)
                     (record (CallGetPluginArchive (storage.ID dep) (storage.Version dep) gv)
                             wl)
                     (repository.File d) (storage.ID dep) (cfg_PluginsPath m)
                   = inl detail).
Proof.
  revert w. induction deps as [|dep deps IH]; intros w; [left; by exists []|].
  destruct (GetPluginArchive (pluginRepo m)
              (record (LogInfo "Fetching %s dependencies..." (storage.ID dep)) w)
              (storage.ID dep) (storage.Version dep) gv) as [detail|d] eqn:Hfetch.
  { right. exists [], dep, deps, []. simpl. eauto. }
  destruct (fs_Add (pluginFs m)
              (record (CallGetPluginArchive (storage.ID dep) (storage.Version dep) gv)
                 (record (LogInfo "Fetching %s dependencies..." (storage.ID dep)) w))
              (repository.File d) (storage.ID dep) (cfg_PluginsPath m))
    as [detail|depArchive] eqn:Hextract.
  { right. exists [], dep, deps, []. simpl. split; [done|]. split; [done|].
    right. eauto. }
  destruct (IH (dependencyWorld gv dep d w))
    as [[answers Hanswered]|(pre & dep' & post & answers & -> & Hanswered & Hfails)].
  - left. exists ((d, depArchive) :: answers). simpl. done.
  - right. exists (dep :: pre), dep', post, ((d, depArchive) :: answers).
    simpl. done.
Qed.

(** C4 (amended): the primary archive has been obtained and extracted, and
    the collaborators have answered for the declared dependencies before
    [dep].  If the repository now fails to deliver [dep], [Add] fails with
    the repository's error wrapped in the message that names [dep]; if the
    repository delivers [dep] and the filesystem fails to extract it, [Add]
    fails with the filesystem's error as it is.  Either way [Add] stops
    right after the failed call: no later dependency is handled and nothing
    is loaded; what the loop did before stays as it is (nothing is deleted
    or unregistered, the registry is the one left by the archive
    resolution). *)
Theorem dependency_failure_aborts pluginID version opts w a w0 ea pre dep post answers
  (Hformat : versionAccepted version)
  (Hresolve : resolveArchive pluginID version (plugins.GrafanaVersion opts) w = (Ok a, w0))
  (Hextract : fs_Add (pluginFs m) w0 (repository.File a) pluginID (cfg_PluginsPath m)
              = inr ea)
  (Hdeclared : storage.Dependencies ea = pre ++ dep :: post)
  (Hearlier : dependenciesAnswered (plugins.GrafanaVersion opts) pre answers
                (record (CallFsAdd (repository.File a) pluginID (cfg_PluginsPath m)) w0)) :
  let gv := plugins.GrafanaVersion opts in
  let wl := record (LogInfo "Fetching %s dependencies..." (storage.ID dep))
              (afterDependencies gv pre answers
                 (record (CallFsAdd (repository.File a) pluginID (cfg_PluginsPath m)) w0)) in
  let fetch := CallGetPluginArchive (storage.ID dep) (storage.Version dep) gv in
  (forall detail,
      GetPluginArchive (pluginRepo m) wl (storage.ID dep) (storage.Version dep) gv
      = inl detail ->
      Add pluginID version opts w
      = (Err (Wrapf (downloadFailed dep) (Upstream detail)), record fetch wl))
  /\ (forall d detail,
        GetPluginArchive (pluginRepo m) wl (storage.ID dep) (storage.Version dep) gv
        = inr d ->
        fs_Add (pluginFs m) (record fetch wl) (repository.File d) (storage.ID dep)
               (cfg_PluginsPath m) = inl detail ->
        Add pluginID version opts w
        = (Err (Upstream detail),
           record (CallFsAdd (repository.File d) (storage.ID dep) (cfg_PluginsPath m))
                  (record fetch wl)))
  /\ registry wl = registry w0
  /\ trace wl
     = trace w0
       ++ CallFsAdd (repository.File a) pluginID (cfg_PluginsPath m)
          :: dependenciesTrace gv pre (fetchedFiles answers)
       ++ [LogInfo "Fetching %s dependencies..." (storage.ID dep)].
Proof.
  intros gv wl fetch. subst gv wl fetch.
  set (gv := plugins.GrafanaVersion opts) in *.
  set (w1 := record (CallFsAdd (repository.File a) pluginID (cfg_PluginsPath m)) w0) in *.
  assert (HAdd : Add pluginID version opts w
                 = (let* pathsToScan :=
                      downloadDependencies (dep :: post) gv
                        ([storage.Path ea] ++ extractedPaths answers) in
                    loadPlugins pathsToScan)
                     (afterDependencies gv pre answers w1)).
  { rewrite Add_accepted by done. unfold bind at 1. fold gv. rewrite Hresolve.
    unfold installArchive, fsAdd. rewrite bind_call, Hextract. fold w1.
    apply bind_at. rewrite Hdeclared.
    by apply downloadDependencies_prefix. }
  destruct (afterDependencies_world _ _ _ _ Hearlier) as [Htrace Hreg].
  split; [|split; [|split]].
  - intros detail Hfetch. rewrite HAdd. unfold bind.
    by rewrite (downloadDependencies_fetch_fails _ _ _ _ _ _ Hfetch).
  - intros d detail Hfetch Hfails. rewrite HAdd. unfold bind.
    by rewrite (downloadDependencies_extract_fails _ _ _ _ _ _ _ Hfetch Hfails).
  - simpl. by rewrite Hreg.
  - simpl. rewrite Htrace. simpl. by rewrite <- !app_assoc.
Qed.

(** ** Successful runs *)

(** X14: when the dependency loop succeeds, the collaborators have been
    asked about the declared dependencies in their order, each one logged,
    fetched from the repository and the delivered file extracted before
    the next, every call succeeding; the loop returns the paths it was
    given followed by the extraction path the filesystem returned for each
    dependency, and the registry is as it was. *)
Theorem downloadDependencies_in_order deps gv paths w ps w'
  (Hsucceeds : downloadDependencies deps gv paths w = (Ok ps, w')) :
  exists answers,
    dependenciesAnswered gv deps answers w
    /\ ps = paths ++ extractedPaths answers
    /\ w' = afterDependencies gv deps answers w
    /\ trace w' = trace w ++ dependenciesTrace gv deps (fetchedFiles answers)
    /\ registry w' = registry w.
Proof.
  apply downloadDependencies_Ok_inv in Hsucceeds as (answers & Hanswered & -> & ->).
  exists answers. destruct (afterDependencies_world _ _ _ _ Hanswered). done.
Qed.

(** X15: when [Add] succeeds, the version token had passed the format
    check, the archive was resolved and the filesystem extracted it, the
    collaborators answered for every declared dependency in order, and the
    loader was called exactly once, as the last step, with the extraction
    path of the primary plugin first and the extraction path the
    filesystem returned for each dependency after it; the registry is the
    one the loader left. *)
Theorem Add_success_loads_batch pluginID version opts w w'
  (Hsucceeds : Add pluginID version opts w = (Ok tt, w')) :
  versionAccepted version
  /\ exists a w0 ea answers,
       let gv := plugins.GrafanaVersion opts in
       let w1 := record (CallFsAdd (repository.File a) pluginID (cfg_PluginsPath m)) w0 in
       let pathsToScan := storage.Path ea :: extractedPaths answers in
       resolveArchive pluginID version gv w = (Ok a, w0)
       /\ fs_Add (pluginFs m) w0 (repository.File a) pluginID (cfg_PluginsPath m) = inr ea
       /\ dependenciesAnswered gv (storage.Dependencies ea) answers w1
       /\ loader m (afterDependencies gv (storage.Dependencies ea) answers w1) pathsToScan
          = (registry w', None)
       /\ trace w'
          = trace w1
            ++ dependenciesTrace gv (storage.Dependencies ea) (fetchedFiles answers)
            ++ [CallLoadPlugins pathsToScan].
Proof.
  rename Hsucceeds into H.
  destruct (versionAccepted_dec version) as [Hok|[Hne Hbad]];
    [|by rewrite Add_rejected in H].
  split; [done|]. rewrite Add_accepted in H by done.
  unfold bind at 1 in H.
  destruct (resolveArchive _ _ _ w) as [[a|e] w0] eqn:Hresolve; [|done].
  exists a, w0. unfold installArchive, fsAdd in H. rewrite bind_call in H.
  destruct (fs_Add _ _ _ _ _) as [detail|ea] eqn:Hextract; [done|].
  unfold bind in H.
  destruct (downloadDependencies _ _ _ _) as [[ps|e] w2] eqn:Hdeps; [|done].
  apply downloadDependencies_Ok_inv in Hdeps as (answers & Hanswered & -> & ->).
  destruct (afterDependencies_world _ _ _ _ Hanswered) as [Htrace _].
  exists ea, answers. simpl. unfold loadPlugins in H. simpl in H.
  destruct (loader m _ _) as [reg' [detail|]] eqn:Hload; [done|].
  injection H as <-. simpl. rewrite Htrace. repeat split; try done.
  simpl. by rewrite <- !app_assoc.
Qed.

(** ** What every run of [Add] and [Remove] respects *)

Lemma emits_ret {A} (a : A) P : emits (ret a) P.
Proof. intros w. exists []. simpl. by rewrite app_nil_r. Qed.

Lemma emits_fail {A} e P : emits (@fail A e) P.
Proof. intros w. exists []. simpl. by rewrite app_nil_r. Qed.

Lemma emits_call {A} ev (answer : World -> string + A) (P : Event -> Prop) :
  P ev -> emits (call ev answer) P.
Proof.
  intros HP w. exists [ev]. rewrite call_world. split; [done|].
  by apply Forall_cons.
Qed.

Lemma emits_bind {A B} (c : M A) (k : A -> M B) P :
  emits c P -> (forall a, emits (k a) P) -> emits (bind c k) P.
Proof.
  intros Hc Hk w. unfold bind. destruct (Hc w) as (added1 & H1 & HP1).
  destruct (c w) as [[a|e] w1]; simpl in H1.
  - destruct (Hk a w1) as (added2 & H2 & HP2). exists (added1 ++ added2).
    split; [by rewrite H2, H1, app_assoc|]. by apply Forall_app.
  - by exists added1.
Qed.

Lemma emits_Remove pluginID gv root : emits (Remove pluginID) (carries gv root).
Proof.
  intros w. unfold Remove.
  destruct (plugin (registry w) pluginID) as [p|]; [|exact (emits_fail _ _ w)].
  destruct (negb _); [exact (emits_fail _ _ w)|].
  destruct (filepath_Rel _ _) as [path|]; [|exact (emits_fail _ _ w)].
  destruct (String.prefix _ _); [exact (emits_fail _ _ w)|].
  apply emits_bind; [|intros _; by apply emits_call].
  intros w0. exists [CallUnregisterAndStop (plugins.ID p)]. unfold unregisterAndStop.
  split; [by destruct (stopFailure m w0 p) as [[? ?]|]|]. by apply Forall_cons.
Qed.

Lemma emits_downloadDependencies deps gv paths :
  emits (downloadDependencies deps gv paths) (carries gv (cfg_PluginsPath m)).
Proof.
  revert paths. induction deps as [|dep deps IH]; intros paths; simpl.
  - apply emits_ret.
  - apply emits_bind.
    { intros w. eexists [_]. split; [reflexivity|]. by apply Forall_cons. }
    intros _ w.
    assert (He : emits
      (let* d := repoArchive (storage.ID dep) (storage.Version dep) gv in
       let* depArchive := fsAdd (repository.File d) (storage.ID dep) in
       downloadDependencies deps gv (paths ++ [storage.Path depArchive]))
      (carries gv (cfg_PluginsPath m))).
    { apply emits_bind; [by apply emits_call|]. intros d.
      apply emits_bind; [by apply emits_call|]. intros a. apply IH. }
    destruct (He w) as (added & Htrace & HP). exists added. split; [|done].
    unfold bind at 1 in Htrace.
    by destruct (repoArchive _ _ _ w) as [[d|err] w1].
Qed.

Lemma emits_loadPlugins paths gv root : emits (loadPlugins paths) (carries gv root).
Proof.
  intros w. unfold loadPlugins.
  destruct (loader m w paths) as [reg' [detail|]]; simpl.
  - eexists [_; _]. split; [by rewrite <- app_assoc|].
    repeat (apply Forall_cons; split; [done|]). by apply Forall_nil.
  - eexists [_]. split; [done|]. by apply Forall_cons.
Qed.

Lemma emits_resolveArchive pluginID version gv :
  emits (resolveArchive pluginID version gv) (carries gv (cfg_PluginsPath m)).
Proof.
  intros w. unfold resolveArchive.
  destruct (plugin (registry w) pluginID) as [p|]; [|by apply emits_call].
  revert w. change (emits (updateArchive p pluginID version gv)
                          (carries gv (cfg_PluginsPath m))).
  unfold updateArchive.
  destruct (negb _); [apply emits_fail|].
  destruct (String.eqb _ version); [apply emits_fail|].
  apply emits_bind; [by apply emits_call|]. intros dlOpts.
  destruct (String.eqb (repository.Version dlOpts) _); [apply emits_fail|].
  destruct (_ && _); [apply emits_fail|].
  apply emits_bind; [apply emits_Remove|]. intros _.
  unfold fetchUpdate. destruct (negb _); by apply emits_call.
Qed.

(** X16: every repository call that [Add] makes, for the plugin and for
    its dependencies alike, carries the host version of the caller's
    compatibility options, and every extraction goes into the configured
    plugins root. *)
Theorem Add_propagates_options pluginID version opts :
  emits (Add pluginID version opts)
        (carries (plugins.GrafanaVersion opts) (cfg_PluginsPath m)).
Proof.
  unfold Add. destruct (_ && _); [apply emits_fail|].
  apply emits_bind; [apply emits_resolveArchive|]. intros a.
  unfold installArchive.
  apply emits_bind; [by apply emits_call|]. intros ea.
  apply emits_bind; [apply emits_downloadDependencies|]. intros paths.
  apply emits_loadPlugins.
Qed.

Lemma preserves_ret {A} (a : A) : preserves (ret a).
Proof. intros w. exists []. simpl. by rewrite app_nil_r. Qed.

Lemma preserves_fail {A} e : preserves (@fail A e).
Proof. intros w. exists []. simpl. by rewrite app_nil_r. Qed.

Lemma preserves_call {A} ev (answer : World -> string + A) : preserves (call ev answer).
Proof. intros w. exists [ev]. by rewrite call_world. Qed.

Lemma preserves_bind {A B} (c : M A) (k : A -> M B) :
  preserves c -> (forall a, preserves (k a)) -> preserves (bind c k).
Proof.
  intros Hc Hk w. unfold bind. destruct (Hc w) as (added1 & H1 & HP1).
  destruct (c w) as [[a|e] w1]; simpl in H1, HP1.
  - destruct (Hk a w1) as (added2 & H2 & HP2). exists (added1 ++ added2).
    split; [by rewrite H2, H1, app_assoc|].
    intros [Hq1 Hq2]%Forall_app. by rewrite HP2, HP1.
  - by exists added1.
Qed.

Lemma preserves_mutating {A} (c : M A) ev :
  mutates ev ->
  (forall w, exists rest, trace (c w).2 = trace w ++ ev :: rest) ->
  preserves c.
Proof.
  intros Hev Hc w. destruct (Hc w) as [rest Hrest]. exists (ev :: rest).
  split; [done|]. intros Hq. apply Forall_cons in Hq as [Hq _]. done.
Qed.

Lemma preserves_Remove pluginID : preserves (Remove pluginID).
Proof.
  intros w. unfold Remove.
  destruct (plugin (registry w) pluginID) as [p|]; [|exact (preserves_fail _ w)].
  destruct (negb _); [exact (preserves_fail _ w)|].
  destruct (filepath_Rel _ _) as [path|]; [|exact (preserves_fail _ w)].
  destruct (String.prefix _ _); [exact (preserves_fail _ w)|].
  revert w. apply (preserves_mutating _ (CallUnregisterAndStop (plugins.ID p))); [done|].
  intros w. unfold bind, unregisterAndStop.
  destruct (stopFailure m w p) as [[detail reg']|]; [by exists []|].
  rewrite call_world. simpl. rewrite <- app_assoc. by eexists.
Qed.

Lemma preserves_loadPlugins paths : preserves (loadPlugins paths).
Proof.
  apply (preserves_mutating _ (CallLoadPlugins paths)); [done|].
  intros w. unfold loadPlugins.
  destruct (loader m w paths) as [reg' [detail|]]; simpl.
  - rewrite <- app_assoc. by eexists.
  - by exists [].
Qed.

Lemma preserves_downloadDependencies deps gv paths :
  preserves (downloadDependencies deps gv paths).
Proof.
  revert paths. induction deps as [|dep deps IH]; intros paths; simpl.
  - apply preserves_ret.
  - apply preserves_bind; [intros w; by eexists [_]|].
    intros _ w.
    assert (He : preserves
      (let* d := repoArchive (storage.ID dep) (storage.Version dep) gv in
       let* depArchive := fsAdd (repository.File d) (storage.ID dep) in
       downloadDependencies deps gv (paths ++ [storage.Path depArchive]))).
    { apply preserves_bind; [apply preserves_call|]. intros d.
      apply preserves_bind; [apply preserves_call|]. intros a. apply IH. }
    destruct (He w) as (added & Htrace & HP). exists added.
    unfold bind at 1 in Htrace. unfold bind at 1 in HP.
    by destruct (repoArchive _ _ _ w) as [[d|err] w1].
Qed.

Lemma preserves_resolveArchive pluginID version gv :
  preserves (resolveArchive pluginID version gv).
Proof.
  intros w. unfold resolveArchive.
  destruct (plugin (registry w) pluginID) as [p|]; [|apply preserves_call].
  revert w. change (preserves (updateArchive p pluginID version gv)).
  unfold updateArchive.
  destruct (negb _); [apply preserves_fail|].
  destruct (String.eqb _ version); [apply preserves_fail|].
  apply preserves_bind; [apply preserves_call|]. intros dlOpts.
  destruct (String.eqb (repository.Version dlOpts) _); [apply preserves_fail|].
  destruct (_ && _); [apply preserves_fail|].
  apply preserves_bind; [apply preserves_Remove|]. intros _.
  unfold fetchUpdate. destruct (negb _); apply preserves_call.
Qed.

(** X17: [Add] changes the registry only through unregister-and-stop and
    the loader: a run that called neither of them, whatever else it did
    and however it ended, leaves the registry exactly as it was. *)
Theorem Add_registry_changes_only_by_unregister_or_load pluginID version opts :
  preserves (Add pluginID version opts).
Proof.
  unfold Add. destruct (_ && _); [apply preserves_fail|].
  apply preserves_bind; [apply preserves_resolveArchive|]. intros a.
  unfold installArchive.
  apply preserves_bind; [apply preserves_call|]. intros ea.
  apply preserves_bind; [apply preserves_downloadDependencies|]. intros paths.
  apply preserves_loadPlugins.
Qed.

(** X18: when the registry files the plugin under its own identifier, the
    removal inside an update finds the plugin that [Add] found, so [Add]
    never fails with [ErrPluginNotInstalled] or [ErrUninstallCorePlugin]. *)
Theorem Add_no_removal_lookup_errors pluginID version opts w
  (Hkeyed : forall p, registry w !! pluginID = Some p -> plugins.ID p = pluginID) :
  (Add pluginID version opts w).1 <> Err ErrPluginNotInstalled
  /\ (Add pluginID version opts w).1 <> Err ErrUninstallCorePlugin.
Proof.
  assert (Hall : forall e w', Add pluginID version opts w = (Err e, w') ->
                   e <> ErrPluginNotInstalled /\ e <> ErrUninstallCorePlugin).
  2:{ destruct (Add pluginID version opts w) as [[[]|e] w'] eqn:E; [done|].
      destruct (Hall e w' eq_refl). simpl. split; congruence. }
  intros e w' H.
  destruct (versionAccepted_dec version) as [Hok|[Hne Hbad]];
    [|rewrite Add_rejected in H by done; by injection H as <- _].
  rewrite Add_accepted in H by done.
  set (Q := fun e => e <> ErrPluginNotInstalled /\ e <> ErrUninstallCorePlugin).
  set (k := fun a0 => installArchive a0 pluginID (plugins.GrafanaVersion opts)) in *.
  assert (HQ : forall e0, upstreamError e0 -> Q e0) by (by intros []).
  assert (Hk : forall a0, raises (k a0) Q).
  { intros a0. eapply raises_mono; [apply HQ|apply installArchive_raises]. }
  change (Q e).
  destruct (plugin (registry w) pluginID) as [p|] eqn:Hp.
  2:{ rewrite (bind_at _ (repoArchive pluginID version (plugins.GrafanaVersion opts))
                 _ w w) in H by (unfold resolveArchive; by rewrite Hp).
      refine (raises_bind _ _ Q _ Hk _ _ _ H).
      eapply raises_mono; [apply HQ|apply repoArchive_raises]. }
  rewrite (bind_at _ (updateArchive p pluginID version (plugins.GrafanaVersion opts))
             _ w w) in H by (unfold resolveArchive; by rewrite Hp).
  apply plugin_inv in Hp as [Hreg Hact]. pose proof (Hkeyed _ Hreg) as Hid.
  unfold updateArchive in H.
  destruct (plugins.IsExternalPlugin p) eqn:Hext; simpl in H;
    [|rewrite bind_fail in H; by injection H as <- _].
  destruct (String.eqb _ version); [rewrite bind_fail in H; by injection H as <- _|].
  rewrite bind_bind in H. unfold repoDownloadOptions in H. rewrite bind_call in H.
  destruct (GetPluginDownloadOptions _ _ _ _ _) as [detail|dlOpts];
    [by injection H as <- _|].
  destruct (String.eqb (repository.Version dlOpts) _);
    [rewrite bind_fail in H; by injection H as <- _|].
  destruct (_ && _); [rewrite bind_fail in H; by injection H as <- _|].
  rewrite bind_bind in H. unfold bind at 1 in H.
  destruct (Remove _ _) as [[[]|e1] w2] eqn:HRemove.
  - refine (raises_bind _ _ Q _ Hk _ _ _ H).
    eapply raises_mono; [apply HQ|apply fetchUpdate_raises].
  - injection H as <- _.
    assert (Hp1 : plugin (registry (record (CallGetPluginDownloadOptions pluginID version
                     (plugins.GrafanaVersion opts)) w)) (plugins.ID p) = Some p).
    { simpl. rewrite Hid. by apply plugin_Some. }
    destruct (Remove_Err _ _ _ _ _ Hp1 Hext HRemove)
      as [[-> _]|[(d & r & -> & _)|(d & -> & _)]]; done.
Qed.

End Manager.

(** * The theorems at the example installation *)

(** The path condition [updating] at a concrete installation: every
    conjunct is decided by evaluation. *)
Ltac example_updating :=
  unfold updating;
  repeat split; try (vm_compute; reflexivity); try discriminate;
  right; first [reflexivity | discriminate].

(** A first installation that goes through: the primary archive and its
    one dependency are fetched and extracted in turn, then both paths are
    loaded in one batch. *)
Example fresh_install_trace :
  Add Demo.NewConstraint Demo.Rel Demo.Separator (Demo.manager Demo.noFaults)
      "acme-panel" "" Demo.opts Demo.fresh
  = (Ok tt,
     {| registry := ∅;
        trace := [CallGetPluginArchive "acme-panel" "" "9.1.0";
                  CallFsAdd "acme-panel-.zip" "acme-panel" Demo.root;
                  LogInfo "Fetching %s dependencies..." "acme-lib";
                  CallGetPluginArchive "acme-lib" "1.0.0" "9.1.0";
                  CallFsAdd "acme-lib-1.0.0.zip" "acme-lib" Demo.root;
                  CallLoadPlugins ["/var/lib/grafana/plugins/acme-panel";
                                   "/var/lib/grafana/plugins/acme-lib"]] |}).
Proof. vm_compute. reflexivity. Qed.

(** C6 at the example installation: a malformed token is rejected and the
    world is the one [Add] started in. *)
Lemma Add_invalid_version_format_witness :
  Add Demo.NewConstraint Demo.Rel Demo.Separator (Demo.manager Demo.noFaults)
      "acme-panel" "not-a-version" Demo.opts Demo.world
  = (Err ErrInvalidPluginVersionFormat, Demo.world)
  /\ isSemVerExpr Demo.NewConstraint "" = false.
Proof.
  apply Add_invalid_version_format; [discriminate|reflexivity].
Defined.

(** C3 (amended) at the example installation: the core plugin [graph]. *)
Lemma core_plugin_guard_witness :
  Add Demo.NewConstraint Demo.Rel Demo.Separator (Demo.manager Demo.noFaults)
      "graph" "2.0.0" Demo.opts Demo.world
  = (Err ErrInstallCorePlugin, Demo.world)
  /\ Remove Demo.Rel Demo.Separator (Demo.manager Demo.noFaults) "graph" Demo.world
     = (Err ErrUninstallCorePlugin, Demo.world).
Proof.
  destruct (core_plugin_guard Demo.NewConstraint Demo.Rel Demo.Separator
              (Demo.manager Demo.noFaults) "graph" "2.0.0" Demo.opts Demo.world
              Demo.graph) as (Hadd & _ & Hremove);
    [vm_compute; reflexivity|reflexivity|reflexivity|].
  split; [apply Hadd; right; reflexivity|exact Hremove].
Defined.

(** C3 as stated fails: for the registered, active core plugin [graph] and
    a malformed version token, [Add] does not fail with
    [ErrInstallCorePlugin] but with [ErrInvalidPluginVersionFormat]. *)
Lemma core_plugin_malformed_version_counterexample :
  registry Demo.world !! "graph" = Some Demo.graph
  /\ plugins.IsExternalPlugin Demo.graph = false
  /\ plugins.IsDecommissioned Demo.graph = false
  /\ Add Demo.NewConstraint Demo.Rel Demo.Separator (Demo.manager Demo.noFaults)
         "graph" "not-a-version" Demo.opts Demo.world
     = (Err ErrInvalidPluginVersionFormat, Demo.world)
  /\ (Add Demo.NewConstraint Demo.Rel Demo.Separator (Demo.manager Demo.noFaults)
          "graph" "not-a-version" Demo.opts Demo.world).1
     <> Err ErrInstallCorePlugin.
Proof.
  repeat split; try (vm_compute; reflexivity). vm_compute. discriminate.
Qed.

(** C8 at the example installation: the decommissioned core plugin
    [legacy-ds]. *)
Lemma decommissioned_core_plugin_takes_fresh_path_witness :
  (Add Demo.NewConstraint Demo.Rel Demo.Separator (Demo.manager Demo.noFaults)
       "legacy-ds" "1.0.0" Demo.opts Demo.world).1 <> Err ErrInstallCorePlugin
  /\ trace (Add Demo.NewConstraint Demo.Rel Demo.Separator (Demo.manager Demo.noFaults)
                "legacy-ds" "1.0.0" Demo.opts Demo.world).2
     = [CallGetPluginArchive "legacy-ds" "1.0.0" "9.1.0";
        CallFsAdd "legacy-ds-1.0.0.zip" "legacy-ds" Demo.root;
        CallLoadPlugins ["/var/lib/grafana/plugins/legacy-ds"]].
Proof.
  destruct (decommissioned_core_plugin_takes_fresh_path Demo.NewConstraint Demo.Rel
              Demo.Separator (Demo.manager Demo.noFaults) "legacy-ds" "1.0.0"
              Demo.opts Demo.world Demo.legacy) as (Hnot & _ & _ & Hfresh);
    [vm_compute; reflexivity|reflexivity|reflexivity|].
  split; [exact Hnot|].
  rewrite Hfresh by (right; reflexivity). vm_compute. reflexivity.
Defined.

(** C5 (amended) at the example installation: [acme-panel] is installed at
    1.0.0; asking for 1.0.0, or for the constraint the repository resolves
    to 1.0.0, is a duplicate. *)
Lemma duplicate_install_rejected_witness :
  Add Demo.NewConstraint Demo.Rel Demo.Separator (Demo.manager Demo.noFaults)
      "acme-panel" "1.0.0" Demo.opts Demo.world
  = (Err (DuplicateError "acme-panel" "/var/lib/grafana/plugins/acme-panel"), Demo.world)
  /\ (Add Demo.NewConstraint Demo.Rel Demo.Separator (Demo.manager Demo.noFaults)
          "acme-panel" ">=1.0.0" Demo.opts Demo.world).1
     = Err (DuplicateError "acme-panel" "/var/lib/grafana/plugins/acme-panel")
  /\ registry (Add Demo.NewConstraint Demo.Rel Demo.Separator (Demo.manager Demo.noFaults)
                   "acme-panel" ">=1.0.0" Demo.opts Demo.world).2
     = registry Demo.world.
Proof.
  split.
  - apply (duplicate_install_rejected Demo.NewConstraint Demo.Rel Demo.Separator
             (Demo.manager Demo.noFaults) "acme-panel" "1.0.0" Demo.opts Demo.world
             Demo.acme);
      [vm_compute; reflexivity|reflexivity|reflexivity|right; reflexivity|reflexivity].
  - destruct (duplicate_install_rejected Demo.NewConstraint Demo.Rel Demo.Separator
                (Demo.manager Demo.noFaults) "acme-panel" ">=1.0.0" Demo.opts Demo.world
                Demo.acme) as [_ Hresolved];
      [vm_compute; reflexivity|reflexivity|reflexivity|right; reflexivity|].
    apply (Hresolved {| repository.PluginZipURL := ""; repository.Version := "1.0.0" |});
      reflexivity.
Defined.

(** C5 as stated fails: [dev-app] is registered, active and external, its
    installed version is the string [%VERSION%], and [Add] with that very
    string fails with [ErrInvalidPluginVersionFormat], not with
    [DuplicateError]. *)
Lemma duplicate_placeholder_version_counterexample :
  registry Demo.world !! "dev-app" = Some Demo.devApp
  /\ plugins.IsDecommissioned Demo.devApp = false
  /\ plugins.IsExternalPlugin Demo.devApp = true
  /\ plugins.Info_Version Demo.devApp = "%VERSION%"
  /\ Add Demo.NewConstraint Demo.Rel Demo.Separator (Demo.manager Demo.noFaults)
         "dev-app" "%VERSION%" Demo.opts Demo.world
     = (Err ErrInvalidPluginVersionFormat, Demo.world)
  /\ (Add Demo.NewConstraint Demo.Rel Demo.Separator (Demo.manager Demo.noFaults)
          "dev-app" "%VERSION%" Demo.opts Demo.world).1
     <> Err (DuplicateError (plugins.ID Demo.devApp) (plugins.PluginDir Demo.devApp)).
Proof.
  repeat split; try (vm_compute; reflexivity). vm_compute. discriminate.
Qed.


(** C9 (amended) at the example installation: the directory of
    [outside-app] is not under the plugins root, so the update stops at
    [Remove]'s guard: only the version resolution has happened, and the
    plugin is registered as before. *)
Lemma update_aborts_when_Remove_fails_witness :
  Add Demo.NewConstraint Demo.Rel Demo.Separator (Demo.manager Demo.noFaults)
      "outside-app" "2.0.0" Demo.opts Demo.world
  = (Err ErrUninstallOutsideOfPluginDir,
     resolvedWorld "outside-app" "2.0.0" Demo.opts Demo.world)
  /\ registry (resolvedWorld "outside-app" "2.0.0" Demo.opts Demo.world) !! "outside-app"
     = Some Demo.outside.
Proof.
  assert (Hupd : updating Demo.NewConstraint (Demo.manager Demo.noFaults)
                   "outside-app" "2.0.0" Demo.opts Demo.world Demo.outside
                   {| repository.PluginZipURL := ""; repository.Version := "2.0.0" |}).
  { example_updating. }
  destruct (update_aborts_when_Remove_fails Demo.NewConstraint Demo.Rel Demo.Separator
              _ _ _ _ _ _ _ ErrUninstallOutsideOfPluginDir
              (resolvedWorld "outside-app" "2.0.0" Demo.opts Demo.world) Hupd)
    as [HAdd _]; [vm_compute; reflexivity|].
  split; [exact HAdd|]. vm_compute. reflexivity.
Defined.

(** C9 as stated fails: [acme-panel] is updated and the deletion of its
    directory fails inside [Remove].  [Add] returns that error without
    fetching anything, but the filesystem has been asked to delete the
    directory and the plugin is not registered any more. *)
Lemma update_delete_failure_counterexample :
  updating Demo.NewConstraint (Demo.manager Demo.deleteFailing)
           "acme-panel" "2.0.0" Demo.opts Demo.world Demo.acme
           {| repository.PluginZipURL := ""; repository.Version := "2.0.0" |}
  /\ exists w',
       Remove Demo.Rel Demo.Separator (Demo.manager Demo.deleteFailing) "acme-panel"
              (resolvedWorld "acme-panel" "2.0.0" Demo.opts Demo.world)
       = (Err (Upstream "permission denied"), w')
       /\ Add Demo.NewConstraint Demo.Rel Demo.Separator (Demo.manager Demo.deleteFailing)
              "acme-panel" "2.0.0" Demo.opts Demo.world
          = (Err (Upstream "permission denied"), w')
       /\ registry Demo.world !! "acme-panel" = Some Demo.acme
       /\ registry w' !! "acme-panel" = None
       /\ trace w' = [CallGetPluginDownloadOptions "acme-panel" "2.0.0" "9.1.0";
                      CallUnregisterAndStop "acme-panel";
                      CallFsRemove "/var/lib/grafana/plugins/acme-panel"].
Proof.
  split.
  - example_updating.
  - exists (removedWorld Demo.acme
              (resolvedWorld "acme-panel" "2.0.0" Demo.opts Demo.world)).
    repeat split; vm_compute; reflexivity.
Qed.

(** C4 (amended) at the example installation with two declared
    dependencies: acme-lib is fetched and extracted, then the repository
    fails to deliver acme-icons.  The error is the repository's, wrapped
    and naming acme-icons; the extracted files stay and nothing is
    loaded. *)
Lemma dependency_failure_aborts_witness :
  exists w2,
    Add Demo.NewConstraint Demo.Rel Demo.Separator
        (Bundle.manager (Demo.fetchFailsFor "acme-icons"))
        "acme-panel" "" Demo.opts Demo.fresh
    = (Err (Wrapf "failed to download plugin acme-icons from repository"
                  (Upstream "repository unavailable")), w2)
    /\ registry w2 = registry Demo.fresh
    /\ trace w2 = [CallGetPluginArchive "acme-panel" "" "9.1.0";
                   CallFsAdd "acme-panel-.zip" "acme-panel" Demo.root;
                   LogInfo "Fetching %s dependencies..." "acme-lib";
                   CallGetPluginArchive "acme-lib" "1.0.0" "9.1.0";
                   CallFsAdd "acme-lib-1.0.0.zip" "acme-lib" Demo.root;
                   LogInfo "Fetching %s dependencies..." "acme-icons";
                   CallGetPluginArchive "acme-icons" "2.0.0" "9.1.0"].
Proof.
  destruct (dependency_failure_aborts Demo.NewConstraint Demo.Rel Demo.Separator
              (Bundle.manager (Demo.fetchFailsFor "acme-icons"))
              "acme-panel" "" Demo.opts Demo.fresh
              {| repository.File := "acme-panel-.zip" |}
              (record (CallGetPluginArchive "acme-panel" "" "9.1.0") Demo.fresh)
              {| storage.Path := "/var/lib/grafana/plugins/acme-panel";
                 storage.Dependencies := Bundle.declared |}
              [ {| storage.ID := "acme-lib"; storage.Version := "1.0.0" |} ]
              {| storage.ID := "acme-icons"; storage.Version := "2.0.0" |}
              [] [Bundle.libAnswer])
    as (Hfetch & _ & _ & _).
  - left. reflexivity.
  - vm_compute. reflexivity.
  - vm_compute. reflexivity.
  - reflexivity.
  - vm_compute. repeat split; reflexivity.
  - eexists. split; [apply Hfetch; vm_compute; reflexivity|].
    split; vm_compute; reflexivity.
Defined.

(** C4 as stated fails: the same installation, but now the extraction of
    [acme-lib] fails.  [Add] returns the filesystem's error as it is: it is
    not a wrapped error and does not name the dependency. *)
Lemma dependency_extraction_failure_counterexample :
  exists w2,
    Add Demo.NewConstraint Demo.Rel Demo.Separator
        (Demo.manager (Demo.extractFailsFor "acme-lib"))
        "acme-panel" "" Demo.opts Demo.fresh
    = (Err (Upstream "disk full"), w2)
    /\ last (trace w2) = Some (CallFsAdd "acme-lib-1.0.0.zip" "acme-lib" Demo.root)
    /\ forall msg inner, Upstream "disk full" <> Wrapf msg inner.
Proof.
  eexists. split; [vm_compute; reflexivity|]. split; [vm_compute; reflexivity|].
  discriminate.
Qed.

(** C2: the code at the failing input.  The directory of [stray-ds] is the
    parent of the plugins root, so its path relative to the root is the
    bare [".."].  [Remove] does not fail with
    [ErrUninstallOutsideOfPluginDir]: it succeeds, the plugin is
    unregistered and the filesystem is asked to delete the parent
    directory.  A relative path that starts with ["../"] is refused. *)
Theorem Remove_bare_parent_directory_not_refused :
  registry Demo.world !! "stray-ds" = Some Demo.stray
  /\ Demo.Rel Demo.root (plugins.PluginDir Demo.stray) = Some ".."
  /\ Remove Demo.Rel Demo.Separator (Demo.manager Demo.noFaults) "stray-ds" Demo.world
     = (Ok tt, removedWorld Demo.stray Demo.world)
  /\ trace (removedWorld Demo.stray Demo.world)
     = [CallUnregisterAndStop "stray-ds"; CallFsRemove "/var/lib/grafana"]
  /\ registry (removedWorld Demo.stray Demo.world) !! "stray-ds" = None
  /\ Remove Demo.Rel Demo.Separator (Demo.manager Demo.noFaults) "outside-app" Demo.world
     = (Err ErrUninstallOutsideOfPluginDir, Demo.world).
Proof.
  repeat split; vm_compute; reflexivity.
Qed.

(** * The further properties at the example installation *)

(** X2 at the example installation: asking for panels and apps, in either
    order and with a repetition. *)
Lemma Plugins_types_as_set_witness :
  Plugins [] string plugins.ID Demo.world ["panel"; "app"; "panel"]
  = Plugins [] string plugins.ID Demo.world ["app"; "panel"].
Proof.
  apply Plugins_types_as_set. intros x.
  rewrite !elem_of_cons, elem_of_nil. tauto.
Defined.

(** X4 at the example installation, whose registry files every plugin
    under its own identifier. *)
Lemma registeredPlugins_keyed_witness :
  registeredPlugins Demo.installed = dom Demo.installed.
Proof.
  apply registeredPlugins_keyed. intros k p H. unfold Demo.installed in H.
  repeat (rewrite lookup_insert in H;
          destruct (decide _) as [<-|_]; [by injection H as <-|]).
  by rewrite lookup_empty in H.
Defined.

(** X6 at the example installation: [outside-app] lives in [/etc/acme]. *)
Lemma Remove_refuses_traversal_witness :
  Remove Demo.Rel Demo.Separator (Demo.manager Demo.noFaults) "outside-app" Demo.world
  = (Err ErrUninstallOutsideOfPluginDir, Demo.world).
Proof.
  apply (Remove_refuses_traversal Demo.Rel Demo.Separator (Demo.manager Demo.noFaults)
           "outside-app" Demo.world Demo.outside);
    [vm_compute; reflexivity|reflexivity|reflexivity|].
  right. exists "../../../../etc/acme". split; reflexivity.
Defined.


(** X10 at the example installation: the duplicate request for
    [acme-panel] 1.0.0. *)
Lemma Add_duplicate_only_for_installed_witness :
  exists p,
    plugin (registry Demo.world) "acme-panel" = Some p
    /\ plugins.IsExternalPlugin p = true
    /\ "acme-panel" = plugins.ID p
    /\ "/var/lib/grafana/plugins/acme-panel" = plugins.PluginDir p.
Proof.
  destruct (Add_duplicate_only_for_installed Demo.NewConstraint Demo.Rel Demo.Separator
              (Demo.manager Demo.noFaults) "acme-panel" "1.0.0" Demo.opts Demo.world
              "acme-panel" "/var/lib/grafana/plugins/acme-panel" Demo.world)
    as (p & Hp & Hext & Hid & Hdir & _); [vm_compute; reflexivity|].
  exists p. done.
Defined.

(** X11 at the example installation: the repository cannot resolve the
    update of [acme-panel]. *)
Lemma Add_resolution_failure_keeps_plugin_witness :
  Add Demo.NewConstraint Demo.Rel Demo.Separator Outage.unresolved
      "acme-panel" "2.0.0" Demo.opts Demo.world
  = (Err (Upstream "no compatible version"),
     resolvedWorld "acme-panel" "2.0.0" Demo.opts Demo.world)
  /\ registry (resolvedWorld "acme-panel" "2.0.0" Demo.opts Demo.world) !! "acme-panel"
     = Some Demo.acme.
Proof.
  apply Add_resolution_failure_keeps_plugin;
    [vm_compute; reflexivity|reflexivity|reflexivity|right; reflexivity
    |discriminate|reflexivity].
Defined.

(** X12 at the example installation: the repository resolves the update
    of [acme-panel] to nothing. *)
Lemma Add_undetermined_update_options_witness :
  Add Demo.NewConstraint Demo.Rel Demo.Separator Outage.undetermined
      "acme-panel" "2.0.0" Demo.opts Demo.world
  = (Err (Errorf "could not determine update options for acme-panel"),
     resolvedWorld "acme-panel" "2.0.0" Demo.opts Demo.world)
  /\ registry (resolvedWorld "acme-panel" "2.0.0" Demo.opts Demo.world) !! "acme-panel"
     = Some Demo.acme.
Proof.
  apply (Add_undetermined_update_options Demo.NewConstraint Demo.Rel Demo.Separator
           Outage.undetermined "acme-panel" "2.0.0" Demo.opts Demo.world Demo.acme
           {| repository.PluginZipURL := ""; repository.Version := "" |});
    [vm_compute; reflexivity|reflexivity|reflexivity|right; reflexivity
    |discriminate|reflexivity|reflexivity|reflexivity].
Defined.

(** X13 at the example installation: a first installation of [acme-panel]
    for which the repository does not deliver the archive. *)
Lemma Add_fresh_install_early_failure_witness :
  Add Demo.NewConstraint Demo.Rel Demo.Separator
      (Demo.manager (Demo.fetchFailsFor "acme-panel"))
      "acme-panel" "" Demo.opts Demo.fresh
  = (Err (Upstream "repository unavailable"),
     record (CallGetPluginArchive "acme-panel" "" "9.1.0") Demo.fresh).
Proof.
  destruct (Add_fresh_install_early_failure Demo.NewConstraint Demo.Rel Demo.Separator
              (Demo.manager (Demo.fetchFailsFor "acme-panel"))
              "acme-panel" "" Demo.opts Demo.fresh) as [Hfetch _];
    [vm_compute; reflexivity|left; reflexivity|].
  apply Hfetch. reflexivity.
Defined.

(** X14 at the example installation with two declared dependencies: the
    loop returns the path it was given and then the two extraction paths
    the filesystem returned, in the order of the declaration. *)
Lemma downloadDependencies_in_order_witness :
  exists answers,
    dependenciesAnswered (Bundle.manager Demo.noFaults) "9.1.0" Bundle.declared
                         answers Demo.fresh
    /\ extractedPaths answers
       = ["/var/lib/grafana/plugins/acme-lib"; "/var/lib/grafana/plugins/acme-icons"].
Proof.
  destruct (downloadDependencies_in_order (Bundle.manager Demo.noFaults)
              Bundle.declared "9.1.0" ["/var/lib/grafana/plugins/acme-panel"] Demo.fresh
              ["/var/lib/grafana/plugins/acme-panel";
               "/var/lib/grafana/plugins/acme-lib";
               "/var/lib/grafana/plugins/acme-icons"]
              (afterDependencies (Bundle.manager Demo.noFaults) "9.1.0" Bundle.declared
                 [Bundle.libAnswer;
                  ({| repository.File := "acme-icons-2.0.0.zip" |},
                   {| storage.Path := "/var/lib/grafana/plugins/acme-icons";
                      storage.Dependencies := [] |})]
                 Demo.fresh))
    as (answers & Hanswered & Hpaths & _); [vm_compute; reflexivity|].
  exists answers. split; [exact Hanswered|].
  injection Hpaths as <-. reflexivity.
Defined.

(** X15 at the example installation with two declared dependencies: the
    installation goes through and the loader receives the three
    extraction paths, the primary plugin's first. *)
Lemma Add_success_loads_batch_witness :
  versionAccepted Demo.NewConstraint ""
  /\ exists a w0 ea answers,
       resolveArchive Demo.Rel Demo.Separator (Bundle.manager Demo.noFaults)
                      "acme-panel" "" "9.1.0" Demo.fresh = (Ok a, w0)
       /\ dependenciesAnswered (Bundle.manager Demo.noFaults) "9.1.0"
            (storage.Dependencies ea) answers
            (record (CallFsAdd (repository.File a) "acme-panel" Demo.root) w0)
       /\ storage.Path ea :: extractedPaths answers
          = ["/var/lib/grafana/plugins/acme-panel";
             "/var/lib/grafana/plugins/acme-lib";
             "/var/lib/grafana/plugins/acme-icons"].
Proof.
  destruct (Add_success_loads_batch Demo.NewConstraint Demo.Rel Demo.Separator
              (Bundle.manager Demo.noFaults) "acme-panel" "" Demo.opts Demo.fresh
              (Add Demo.NewConstraint Demo.Rel Demo.Separator
                   (Bundle.manager Demo.noFaults)
                   "acme-panel" "" Demo.opts Demo.fresh).2)
    as (Hok & a & w0 & ea & answers & Hresolve & Hextract & Hanswered & _ & Htrace);
    [vm_compute; reflexivity|].
  split; [exact Hok|]. exists a, w0, ea, answers.
  split; [exact Hresolve|]. split; [exact Hanswered|].
  apply (f_equal last) in Htrace. rewrite app_assoc, last_snoc in Htrace.
  assert (Hlast : last (trace (Add Demo.NewConstraint Demo.Rel Demo.Separator
                                   (Bundle.manager Demo.noFaults)
                                   "acme-panel" "" Demo.opts Demo.fresh).2)
                  = Some (CallLoadPlugins ["/var/lib/grafana/plugins/acme-panel";
                                           "/var/lib/grafana/plugins/acme-lib";
                                           "/var/lib/grafana/plugins/acme-icons"]))
    by (vm_compute; reflexivity).
  rewrite Hlast in Htrace. by injection Htrace as <- <-.
Defined.

(** X18 at the example installation: the update of [acme-panel]. *)
Lemma Add_no_removal_lookup_errors_witness :
  (Add Demo.NewConstraint Demo.Rel Demo.Separator (Demo.manager Demo.noFaults)
       "acme-panel" "2.0.0" Demo.opts Demo.world).1 <> Err ErrPluginNotInstalled
  /\ (Add Demo.NewConstraint Demo.Rel Demo.Separator (Demo.manager Demo.noFaults)
          "acme-panel" "2.0.0" Demo.opts Demo.world).1 <> Err ErrUninstallCorePlugin.
Proof.
  apply Add_no_removal_lookup_errors.
  intros p H. vm_compute in H. by injection H as <-.
Defined.
